(** * AWS EC2 & S3 exploratory dashboard: the filter / aggregate / insight core

    A shallow embedding of [streamlit_app.py].  The script is a straight line
    of pandas calls; every pandas call used by the script becomes a list
    function below, named after the call or after the script variable that
    holds its result.

    Conventions of the embedding.
    - A table is the list of its rows, in index order.
    - A float64 cell is a [num]: [Some q] for the number [q], [None] for NaN
      (the way pandas stores a missing number).  Numbers are exact rationals,
      kept in lowest terms; binary rounding of float64 is not modelled.
    - An object cell holding a region is an [option string]: [None] is the
      missing value. *)

From Stdlib Require Import List String Ascii Bool ZArith QArith Qabs Lia.
From Stdlib Require Import Permutation Sorted DecimalString.
From Stdlib Require OrderedTypeEx.
Import ListNotations.

Local Open Scope string_scope.
Local Open Scope Q_scope.

(** ** Cells *)

Definition num := option Q.
Definition key := option string.

Definition isna {A : Type} (c : option A) : bool :=
  match c with Some _ => false | None => true end.

Definition notna {A : Type} (c : option A) : bool := negb (isna c).

Definition key_eqb (a b : key) : bool :=
  match a, b with
  | Some x, Some y => String.eqb x y
  | None, None => true
  | _, _ => false
  end.

(** ** Rows of the two tables *)

Record ComputeRow := mkCompute {
  ResourceId : string;
  Region : key;
  CostUSD : num;
  CPUUtilization : num
}.

Record StorageRow := mkStorage {
  BucketName : string;
  SRegion : key;
  TotalSizeGB : num;
  SCostUSD : num
}.

Definition ComputeTable := list ComputeRow.
Definition StorageTable := list StorageRow.

(** ** Basic cleaning (lines 27-28) *)

(** [ec2_df.dropna(subset=["CostUSD", "CPUUtilization"])] *)
Definition clean_ec2 (df : ComputeTable) : ComputeTable :=
  filter (fun r => notna (CostUSD r) && notna (CPUUtilization r)) df.

Definition fillna0 (c : num) : num :=
  match c with Some q => Some q | None => Some 0 end.

(** [s3_df.fillna({"CostUSD": 0})] *)
Definition clean_s3 (df : StorageTable) : StorageTable :=
  map (fun r => mkStorage (BucketName r) (SRegion r) (TotalSizeGB r)
                          (fillna0 (SCostUSD r))) df.

(** ** Series helpers *)

(** [Series.isin(values)]: pandas lets a missing value match a missing value. *)
Definition isin (c : key) (values : list key) : bool :=
  existsb (key_eqb c) values.

(** [Series.between(left, right)], inclusive on both sides; every comparison
    with NaN is false. *)
Definition between (x left right : num) : bool :=
  match x, left, right with
  | Some v, Some l, Some r => Qle_bool l v && Qle_bool v r
  | _, _, _ => false
  end.

(** [Series.dropna()] *)
Fixpoint dropna {A : Type} (s : list (option A)) : list A :=
  match s with
  | [] => []
  | Some a :: s' => a :: dropna s'
  | None :: s' => dropna s'
  end.

(** [Series.unique()]: distinct values in order of first appearance. *)
Fixpoint unique (s : list string) : list string :=
  match s with
  | [] => []
  | a :: s' => a :: filter (fun b => negb (String.eqb a b)) (unique s')
  end.

(** A stable insertion sort for an arbitrary comparison; [sorted(...)] and
    the [sort_values] calls are instances of it. *)
Fixpoint insert_by {A : Type} (leb : A -> A -> bool) (a : A) (l : list A)
  : list A :=
  match l with
  | [] => [a]
  | b :: l' => if leb a b then a :: b :: l' else b :: insert_by leb a l'
  end.

Definition sort_by {A : Type} (leb : A -> A -> bool) (l : list A) : list A :=
  fold_right (insert_by leb) [] l.

(** [sorted(...)] on Python strings. *)
Definition sorted_str (l : list string) : list string := sort_by String.leb l.

(** [Series.min()] and [Series.max()], which skip NaN and give NaN on a
    series with no number in it. *)
Definition qmin (a b : Q) : Q := if Qle_bool a b then a else b.
Definition qmax (a b : Q) : Q := if Qle_bool a b then b else a.

Definition series_min (s : list num) : num :=
  match dropna s with
  | [] => None
  | a :: l => Some (fold_left qmin l a)
  end.

Definition series_max (s : list num) : num :=
  match dropna s with
  | [] => None
  | a :: l => Some (fold_left qmax l a)
  end.

(** ** Sidebar filters (lines 36-69) *)

(** [sorted(df["Region"].dropna().unique())] *)
Definition region_options (col : list key) : list string :=
  sorted_str (unique (dropna col)).

Definition ec2_regions (ec2_df : ComputeTable) : list string :=
  region_options (map Region ec2_df).

Definition s3_regions (s3_df : StorageTable) : list string :=
  region_options (map SRegion s3_df).

(** The values the four widgets hand back. *)
Record FilterCriteria := mkCriteria {
  selected_ec2_regions : list key;
  selected_s3_regions : list key;
  ec2_cost_range : num * num;
  ec2_cpu_range : num * num
}.

(** The default values handed to the four widgets: every option selected,
    and each range running from the smallest to the largest value of its
    column.  Whether the sliders accept these values is decided by
    [sidebar] below. *)
Definition default_criteria (ec2_df : ComputeTable) (s3_df : StorageTable)
  : FilterCriteria :=
  mkCriteria
    (map Some (ec2_regions ec2_df))
    (map Some (s3_regions s3_df))
    (series_min (map CostUSD ec2_df), series_max (map CostUSD ec2_df))
    (series_min (map CPUUtilization ec2_df),
     series_max (map CPUUtilization ec2_df)).

(** A widget call either builds the widget and returns its value, or
    raises. *)
Inductive widget (A : Type) : Type :=
  | Built (value : A)
  | StreamlitInvalidMinMaxError.
Arguments Built {A} value.
Arguments StreamlitInvalidMinMaxError {A}.

(** [st.sidebar.slider(label, min_value, max_value, value)] on an untouched
    widget: it raises when [min_value] is not below [max_value], which is
    the case of a column that holds one value only, and returns [value]
    otherwise.  A bound that is NaN (the column is empty) trips no
    comparison. *)
Definition slider (min_value max_value : num) (value : num * num)
  : widget (num * num) :=
  match min_value, max_value with
  | Some lo, Some hi =>
      if Qle_bool hi lo then StreamlitInvalidMinMaxError else Built value
  | _, _ => Built value
  end.

(** Lines 36-69 with no widget touched: the two multiselects return their
    defaults, then the cost slider is built, then the utilization slider. *)
Definition sidebar (ec2_df : ComputeTable) (s3_df : StorageTable)
  : widget FilterCriteria :=
  let d := default_criteria ec2_df s3_df in
  match slider (fst (ec2_cost_range d)) (snd (ec2_cost_range d))
               (ec2_cost_range d) with
  | StreamlitInvalidMinMaxError => StreamlitInvalidMinMaxError
  | Built cost_range =>
      match slider (fst (ec2_cpu_range d)) (snd (ec2_cpu_range d))
                   (ec2_cpu_range d) with
      | StreamlitInvalidMinMaxError => StreamlitInvalidMinMaxError
      | Built cpu_range =>
          Built (mkCriteria (selected_ec2_regions d) (selected_s3_regions d)
                            cost_range cpu_range)
      end
  end.

(** A multiselect only returns values taken from its options. *)
Definition from_options (selected : list key) (options : list string) : Prop :=
  incl selected (map Some options).

Definition widget_criteria (ec2_df : ComputeTable) (s3_df : StorageTable)
                           (c : FilterCriteria) : Prop :=
  from_options (selected_ec2_regions c) (ec2_regions ec2_df) /\
  from_options (selected_s3_regions c) (s3_regions s3_df).

(** ** Apply filters (lines 77-83) *)

Definition ec2_keep (c : FilterCriteria) (r : ComputeRow) : bool :=
  isin (Region r) (selected_ec2_regions c) &&
  between (CostUSD r) (fst (ec2_cost_range c)) (snd (ec2_cost_range c)) &&
  between (CPUUtilization r) (fst (ec2_cpu_range c)) (snd (ec2_cpu_range c)).

Definition ec2_filtered (ec2_df : ComputeTable) (c : FilterCriteria)
  : ComputeTable :=
  filter (ec2_keep c) ec2_df.

Definition s3_keep (c : FilterCriteria) (r : StorageRow) : bool :=
  isin (SRegion r) (selected_s3_regions c).

Definition s3_filtered (s3_df : StorageTable) (c : FilterCriteria)
  : StorageTable :=
  filter (s3_keep c) s3_df.

(** ** Aggregation (lines 93, 98, 126-131, 147-152) *)

Definition qsum (l : list Q) : Q := Qred (fold_right Qplus 0 l).

(** [Series.sum()]: NaN is skipped, the empty sum is 0.  The sum is the
    exact one; float64 addition rounds, so sums taken in different orders
    may differ in the code and agree here. *)
Definition series_sum (s : list num) : num := Some (qsum (dropna s)).

(** [Series.mean()]: NaN is skipped, the mean of nothing is NaN.  The mean
    is the exact one; the float64 mean may differ from it in the last
    place. *)
Definition series_mean (s : list num) : num :=
  match dropna s with
  | [] => None
  | l => Some (Qred (qsum l / inject_Z (Z.of_nat (List.length l))))
  end.

(** [df.groupby(by)]: one group per distinct non-missing key, keys ascending;
    each group holds its rows in table order. *)
Definition groupby {A : Type} (by_ : A -> key) (df : list A)
  : list (string * list A) :=
  map (fun k => (k, filter (fun r => key_eqb (by_ r) (Some k)) df))
      (region_options (map by_ df)).

(** [df.groupby(by)[col].agg()] for [agg] one of [mean], [sum]: a series
    indexed by group key. *)
Definition group_agg {A : Type} (by_ : A -> key) (col : A -> num)
    (agg : list num -> num) (df : list A) : list (string * num) :=
  map (fun g => (fst g, agg (map col (snd g)))) (groupby by_ df).

Definition qleb_desc (a b : Q) : bool := Qle_bool b a.

Definition num_get (c : num) : Q := match c with Some q => q | None => 0 end.

(** [sort_values(ascending=...)] on the values [col]: the rows that hold a
    number are sorted, rows holding NaN follow in table order.  The order
    among equal values is the one of a stable sort; the script calls
    [sort_values] with the default kind, which does not promise that order,
    so the statements below about a series or a displayed table do not
    depend on it. *)
Definition sort_values {A : Type} (col : A -> num) (ascending : bool)
    (s : list A) : list A :=
  sort_by (fun a b => if ascending
                      then Qle_bool (num_get (col a)) (num_get (col b))
                      else qleb_desc (num_get (col a)) (num_get (col b)))
          (filter (fun r => notna (col r)) s)
  ++ filter (fun r => isna (col r)) s.

(** [df.nlargest(n, col)] with the default [keep="first"]. *)
Definition nlargest {A : Type} (n : nat) (col : A -> num) (df : list A)
  : list A :=
  firstn n (sort_values col false df).

(** [ec2_filtered.groupby("Region")["CostUSD"].mean()
      .sort_values(ascending=False)] *)
Definition avg_cost_region (ec2_view : ComputeTable) : list (string * num) :=
  sort_values snd false (group_agg Region CostUSD series_mean ec2_view).

(** [s3_filtered.groupby("Region")["TotalSizeGB"].sum()
      .sort_values(ascending=False)] *)
Definition storage_by_region (s3_view : StorageTable) : list (string * num) :=
  sort_values snd false (group_agg SRegion TotalSizeGB series_sum s3_view).

(** ** Top resources (lines 253-258, 277-281) *)

Definition top_ec2 (ec2_view : ComputeTable) : ComputeTable :=
  sort_values CostUSD true (nlargest 5 CostUSD ec2_view).

Definition top_s3 (s3_view : StorageTable) : StorageTable :=
  sort_values TotalSizeGB true (nlargest 5 TotalSizeGB s3_view).

(** ** Number formatting (the f-string format specs [.2f] and [,.0f]) *)

(** Nearest integer to the non-negative rational [q], halves to even. *)
Definition round_half_even (q : Q) : Z :=
  let n := (Qnum q / Zpos (Qden q))%Z in
  let r := (Qnum q mod Zpos (Qden q))%Z in
  match (2 * r ?= Zpos (Qden q))%Z with
  | Lt => n
  | Gt => (n + 1)%Z
  | Eq => if Z.even n then n else (n + 1)%Z
  end.

Definition digits (z : Z) : string :=
  NilZero.string_of_uint (N.to_uint (Z.to_N z)).

Definition sign_of (q : Q) : string :=
  if Qle_bool 0 q then "" else "-".

(** The [,] option: a comma between groups of three digits, counted from the
    right; [rev_digits] is the digit string, last digit first. *)
Fixpoint commas (rev_digits : list ascii) : list ascii :=
  match rev_digits with
  | a :: b :: c :: ((_ :: _) as rest) =>
      a :: b :: c :: ","%char :: commas rest
  | _ => rev_digits
  end.

Definition thousands (s : string) : string :=
  string_of_list_ascii (rev (commas (rev (list_ascii_of_string s)))).

(** [f"{x:.2f}"] *)
Definition fmt_2f (x : num) : string :=
  match x with
  | None => "nan"
  | Some q =>
      let m := round_half_even (Qabs q * 100) in
      let frac := (m mod 100)%Z in
      sign_of q ++ digits (m / 100) ++ "."
      ++ (if (frac <? 10)%Z then "0" else "") ++ digits frac
  end.

(** [f"{x:,.0f}"] *)
Definition fmt_comma_0f (x : num) : string :=
  match x with
  | None => "nan"
  | Some q => sign_of q ++ thousands (digits (round_half_even (Qabs q)))
  end.

(** ** High-level KPIs (lines 90-99) *)

(** [df.empty] *)
Definition empty {A : Type} (df : list A) : bool :=
  match df with [] => true | _ :: _ => false end.

Definition kpi_ec2_instances (ec2_view : ComputeTable) : nat :=
  List.length ec2_view.

Definition kpi_avg_ec2_cost (ec2_view : ComputeTable) : string :=
  if negb (empty ec2_view)
  then fmt_2f (series_mean (map CostUSD ec2_view))
  else "0.00".

Definition kpi_s3_buckets (s3_view : StorageTable) : nat :=
  List.length s3_view.

Definition kpi_total_s3_storage (s3_view : StorageTable) : string :=
  if negb (empty s3_view)
  then fmt_comma_0f (series_sum (map TotalSizeGB s3_view))
  else "0".

(** ** Optimization strategies (lines 307-371) *)

(** A pandas call either returns or raises [ValueError]. *)
Inductive result (A : Type) : Type :=
  | Ok (a : A)
  | ValueError.
Arguments Ok {A} a.
Arguments ValueError {A}.

Definition bind {A B : Type} (m : result A) (f : A -> result B) : result B :=
  match m with Ok a => f a | ValueError => ValueError end.

Notation "x <- m ;; k" := (bind m (fun x => k))
  (at level 61, m at next level, right associativity).

Fixpoint dropna_series (s : list (string * num)) : list (string * Q) :=
  match s with
  | [] => []
  | (k, Some v) :: s' => (k, v) :: dropna_series s'
  | (_, None) :: s' => dropna_series s'
  end.

(** [Series.idxmax()]: the label of the first occurrence of the largest
    number; [ValueError] when the series holds no number. *)
Definition idxmax (s : list (string * num)) : result string :=
  match dropna_series s with
  | [] => ValueError
  | b :: l =>
      Ok (fst (fold_left
                 (fun best x => if Qle_bool (snd x) (snd best) then best else x)
                 l b))
  end.

(** The pair [(ec2_expensive_region, ec2_expensive_value)]; [None] stands
    for the two Python [None]s of the [else] branch. *)
Definition ec2_expensive (ec2_view : ComputeTable)
  : result (option (string * num)) :=
  if negb (empty ec2_view) then
    let avg_cost_region_opt := avg_cost_region ec2_view in
    region <- idxmax avg_cost_region_opt ;;
    Ok (Some (region, series_max (map snd avg_cost_region_opt)))
  else Ok None.

(** The pair [(s3_heaviest_region, s3_heaviest_value)]. *)
Definition s3_heaviest (s3_view : StorageTable)
  : result (option (string * num)) :=
  if negb (empty s3_view) then
    let storage_by_region_opt := storage_by_region s3_view in
    region <- idxmax storage_by_region_opt ;;
    Ok (Some (region, series_max (map snd storage_by_region_opt)))
  else Ok None.

(** The Python value of a region label.  [read_csv] gives the Region
    column the dtype [object] when some region is not a number, and the
    labels are then strings; it gives it the dtype [int64] when every cell
    is an integer, and the labels are then integers.  A table holds the
    cells of an [int64] column as their decimal text. *)
Inductive dtype : Type := object | int64.

Inductive pyval : Type :=
  | PyNone
  | PyStr (s : string)
  | PyInt (z : Z).

Definition label_value (d : dtype) (text : string) : pyval :=
  match d with
  | object => PyStr text
  | int64 =>
      match NilZero.int_of_string text with
      | Some i => PyInt (Z.of_int i)
      | None => PyStr text
      end
  end.

(** Truth value of a Python value, as [X if region else Y] tests it:
    [None], the empty string and the integer 0 are false. *)
Definition truthy (region : pyval) : bool :=
  match region with
  | PyNone => false
  | PyStr s => negb (String.eqb s "")
  | PyInt z => negb (Z.eqb z 0)
  end.

(** [str(region)], as an f-string prints it. *)
Definition py_str (region : pyval) : string :=
  match region with
  | PyNone => "None"
  | PyStr s => s
  | PyInt z => NilZero.string_of_int (Z.to_int z)
  end.

Record StrategyRow := mkStrategy {
  Area : string;
  Pattern_Observed : string;
  Optimization_Action : string;
  Expected_Impact : string
}.

(** The conditional expression of lines 339-342. *)
Definition ec2_observed (region : pyval) (value : num) : string :=
  if truthy region
  then "Highest avg hourly cost in region " ++ py_str region
       ++ " (~" ++ fmt_2f value ++ " USD/hr)"
  else "No EC2 data for current filters".

(** The conditional expression of lines 356-359. *)
Definition s3_observed (region : pyval) (value : num) : string :=
  if truthy region
  then "Largest total storage in region " ++ py_str region
       ++ " (~" ++ fmt_comma_0f value ++ " GB)"
  else "No S3 data for current filters".

(** The pair found by the lookup, as the two Python variables: both are
    [None] when the view was empty (the value is then never printed). *)
Definition region_of (d : dtype) (e : option (string * num)) : pyval :=
  match e with
  | Some (r, _) => label_value d r
  | None => PyNone
  end.

Definition value_of (e : option (string * num)) : num :=
  match e with
  | Some (_, v) => v
  | None => None
  end.

Definition ec2_pattern_as (d : dtype) (e : option (string * num)) : string :=
  ec2_observed (region_of d e) (value_of e).

Definition s3_pattern_as (d : dtype) (e : option (string * num)) : string :=
  s3_observed (region_of d e) (value_of e).

Definition ec2_static_row : StrategyRow :=
  mkStrategy "EC2"
    "Under-utilized instances with low CPU but non-trivial cost."
    "Downsize instance types or schedule shutdown outside business hours."
    "Avoid paying for idle capacity.".

Definition s3_static_row : StrategyRow :=
  mkStrategy "S3"
    "Potential growth from versioning and duplicate copies."
    "Review versioning; clean up non-current versions and unnecessary replicas."
    "Control long-term storage growth and cost.".

Definition ec2_dynamic_row_as (d : dtype) (e : option (string * num))
  : StrategyRow :=
  mkStrategy "EC2" (ec2_pattern_as d e)
    "Rightsize instances or move flexible workloads to cheaper regions."
    "Lower compute spend while keeping performance acceptable.".

Definition s3_dynamic_row_as (d : dtype) (e : option (string * num))
  : StrategyRow :=
  mkStrategy "S3" (s3_pattern_as d e)
    "Use lifecycle rules to move cold data to STANDARD_IA/GLACIER and expire old objects."
    "Reduce monthly storage cost, especially for archival data.".

(** The list [strategies] as it stands at line 371, for Region columns of
    the dtypes [ec2_dtype] and [s3_dtype]. *)
Definition strategies_as (ec2_dtype s3_dtype : dtype)
    (ec2_view : ComputeTable) (s3_view : StorageTable)
  : result (list StrategyRow) :=
  e <- ec2_expensive ec2_view ;;
  s <- s3_heaviest s3_view ;;
  Ok [ec2_dynamic_row_as ec2_dtype e; ec2_static_row;
      s3_dynamic_row_as s3_dtype s; s3_static_row].

(** The same for tables whose regions are strings. *)
Definition ec2_pattern (e : option (string * num)) : string :=
  ec2_pattern_as object e.

Definition s3_pattern (e : option (string * num)) : string :=
  s3_pattern_as object e.

Definition ec2_dynamic_row (e : option (string * num)) : StrategyRow :=
  ec2_dynamic_row_as object e.

Definition s3_dynamic_row (e : option (string * num)) : StrategyRow :=
  s3_dynamic_row_as object e.

Definition strategies (ec2_view : ComputeTable) (s3_view : StorageTable)
  : result (list StrategyRow) :=
  strategies_as object object ec2_view s3_view.

(** ** One run of the script *)

(** What [pd.read_csv] returns for the two files. *)
Definition Files := (ComputeTable * StorageTable)%type.

(** The store behind [@st.cache_data]: [load_data] takes no argument, so the
    store holds at most one entry. *)
Definition Cache := option Files.

(** A computation that reads and updates the store. *)
Definition Cached (A : Type) := Cache -> A * Cache.

Definition load_data (files : Files) : Cached Files :=
  fun cache =>
    match cache with
    | Some loaded => (loaded, cache)
    | None => (files, Some files)
    end.

(** Everything handed to the presentation layer.  The two top-5 tables are
    only built when their view is not empty. *)
Record Outputs := mkOutputs {
  out_ec2_filtered : ComputeTable;
  out_s3_filtered : StorageTable;
  out_ec2_instances : nat;
  out_avg_ec2_cost : string;
  out_s3_buckets : nat;
  out_total_s3_storage : string;
  out_avg_cost_region : list (string * num);
  out_storage_by_region : list (string * num);
  out_top_ec2 : option ComputeTable;
  out_top_s3 : option StorageTable;
  out_strategies : result (list StrategyRow)
}.

(** Lines 77-371 on the cleaned tables. *)
Definition render (ec2_df : ComputeTable) (s3_df : StorageTable)
                  (c : FilterCriteria) : Outputs :=
  let ec2_view := ec2_filtered ec2_df c in
  let s3_view := s3_filtered s3_df c in
  mkOutputs ec2_view s3_view
    (kpi_ec2_instances ec2_view) (kpi_avg_ec2_cost ec2_view)
    (kpi_s3_buckets s3_view) (kpi_total_s3_storage s3_view)
    (avg_cost_region ec2_view) (storage_by_region s3_view)
    (if negb (empty ec2_view) then Some (top_ec2 ec2_view) else None)
    (if negb (empty s3_view) then Some (top_s3 s3_view) else None)
    (strategies ec2_view s3_view).

(** The whole script: load (through the cache), clean, render. *)
Definition script (files : Files) (c : FilterCriteria) : Cached Outputs :=
  fun cache =>
    let '((ec2_df, s3_df), cache') := load_data files cache in
    (render (clean_ec2 ec2_df) (clean_s3 s3_df) c, cache').

(** The outputs that are computed from the compute table, and those computed
    from the storage table.  The first strategy row is the EC2 one, the
    third the S3 one; neither is there when building the list raised. *)
Definition strategy_row (o : Outputs) (i : nat) : option StrategyRow :=
  match out_strategies o with
  | Ok rows => nth_error rows i
  | ValueError => None
  end.

Definition compute_outputs (o : Outputs) :=
  (out_ec2_filtered o, out_ec2_instances o, out_avg_ec2_cost o,
   out_avg_cost_region o, out_top_ec2 o, strategy_row o 0).

Definition storage_outputs (o : Outputs) :=
  (out_s3_filtered o, out_s3_buckets o, out_total_s3_storage o,
   out_storage_by_region o, out_top_s3 o, strategy_row o 2).

(** ** Vocabulary of the statements *)

(** [x] lies in the closed interval [range]. *)
Definition in_range (x : num) (range : num * num) : Prop :=
  exists v lo hi,
    x = Some v /\ fst range = Some lo /\ snd range = Some hi /\
    lo <= v /\ v <= hi.

(** [l1] is [l2] with some rows left out, order kept. *)
Inductive Sublist {A : Type} : list A -> list A -> Prop :=
  | Sublist_nil : Sublist [] []
  | Sublist_keep a l1 l2 : Sublist l1 l2 -> Sublist (a :: l1) (a :: l2)
  | Sublist_drop a l1 l2 : Sublist l1 l2 -> Sublist l1 (a :: l2).

(** Descending order on cells, NaN below every number. *)
Definition num_ge (a b : num) : Prop :=
  match a, b with
  | Some x, Some y => y <= x
  | _, None => True
  | None, Some _ => False
  end.


(** ** Sample data used by the worked instances *)

Definition degenerate_demo : FilterCriteria :=
  mkCriteria [] [] (Some 5, Some 1) (Some 9, Some 2).

Definition demo_ec2 : ComputeTable :=
  [mkCompute "i-1" (Some "us-east-1") (Some 3) (Some 40);
   mkCompute "i-2" None (Some 7) (Some 80);
   mkCompute "i-3" (Some "eu-west-1") (Some 5) (Some 10)].

Definition demo_s3 : StorageTable :=
  [mkStorage "logs" (Some "us-east-1") (Some 12345) (Some 2);
   mkStorage "tmp" None (Some 10) (Some 0)].

Definition demo_criteria : FilterCriteria :=
  mkCriteria [Some "us-east-1"] [Some "us-east-1"]
             (Some 0, Some 10) (Some 0, Some 100).

Definition demo_seven : ComputeTable :=
  [mkCompute "r1" (Some "A") (Some 5) (Some 50);
   mkCompute "r2" (Some "A") (Some 9) (Some 50);
   mkCompute "r3" (Some "B") (Some 5) (Some 50);
   mkCompute "r4" (Some "B") (Some 9) (Some 50);
   mkCompute "r5" (Some "A") (Some 5) (Some 50);
   mkCompute "r6" (Some "C") (Some 1) (Some 50);
   mkCompute "r7" (Some "C") (Some 5) (Some 50)].

Definition demo_criteria_no_s3 : FilterCriteria :=
  mkCriteria [Some "us-east-1"] []
             (Some 0, Some 10) (Some 0, Some 100).

(** Ascending order on cells, NaN above every number (the order of
    [sort_values(ascending=True)]). *)
Definition num_le (a b : num) : Prop :=
  match a, b with
  | Some x, Some y => x <= y
  | _, None => True
  | None, Some _ => False
  end.

(** The closed interval [inner] lies inside the closed interval [outer]. *)
Definition range_within (inner outer : num * num) : Prop :=
  exists lo1 hi1 lo2 hi2,
    inner = (Some lo1, Some hi1) /\ outer = (Some lo2, Some hi2) /\
    lo2 <= lo1 /\ hi1 <= hi2.

(** A character other than the thousands separator. *)
Definition not_comma (a : ascii) : bool := negb (Ascii.eqb a ",").

(** Two tables whose Region column holds the integer 0 in every row, and
    so is read with the dtype [int64]. *)
Definition zero_region_ec2 : ComputeTable :=
  [mkCompute "i-1" (Some "0") (Some 1) (Some 10);
   mkCompute "i-2" (Some "0") (Some 3) (Some 20)].

Definition zero_region_s3 : StorageTable :=
  [mkStorage "logs" (Some "0") (Some 10) (Some 1);
   mkStorage "data" (Some "0") (Some 30) (Some 2)].

(** * Properties *)

(** ** Cells and membership *)

Lemma key_eqb_eq (a b : key) : key_eqb a b = true <-> a = b.
Proof.
  destruct a as [x|], b as [y|]; simpl; split; intro H;
    try discriminate; try reflexivity.
  - apply String.eqb_eq in H. now subst.
  - injection H as ->. apply String.eqb_refl.
Qed.

Lemma isin_In (c : key) (values : list key) :
  isin c values = true <-> In c values.
Proof.
  unfold isin. rewrite existsb_exists. split.
  - intros [b [Hb E]]. apply key_eqb_eq in E. now subst.
  - intro H. exists c. split; [assumption | now apply key_eqb_eq].
Qed.

Lemma between_in_range (x lo hi : num) :
  between x lo hi = true <-> in_range x (lo, hi).
Proof.
  unfold between, in_range. simpl. split.
  - destruct x as [v|], lo as [l|], hi as [h|]; try discriminate.
    intro H. apply andb_true_iff in H. destruct H as [H1 H2].
    apply Qle_bool_iff in H1, H2.
    exists v, l, h. repeat split; assumption.
  - intros (v & l & h & -> & -> & -> & H1 & H2).
    apply andb_true_iff. split; now apply Qle_bool_iff.
Qed.

Lemma filter_Sublist {A : Type} (p : A -> bool) (l : list A) :
  Sublist (filter p l) l.
Proof.
  induction l as [|a l IH]; simpl.
  - constructor.
  - destruct (p a); now constructor.
Qed.

Lemma Sublist_incl {A : Type} (l1 l2 : list A) :
  Sublist l1 l2 -> incl l1 l2.
Proof.
  induction 1 as [|a l1 l2 _ IH|a l1 l2 _ IH]; intros x Hx.
  - assumption.
  - destruct Hx as [->|Hx]; [now left | right; now apply IH].
  - right. now apply IH.
Qed.

Lemma ec2_keep_spec (c : FilterCriteria) (r : ComputeRow) :
  ec2_keep c r = true <->
  In (Region r) (selected_ec2_regions c) /\
  in_range (CostUSD r) (ec2_cost_range c) /\
  in_range (CPUUtilization r) (ec2_cpu_range c).
Proof.
  unfold ec2_keep. rewrite !andb_true_iff, isin_In, !between_in_range.
  rewrite <- !surjective_pairing. tauto.
Qed.

(** C1.  The compute view holds exactly the rows of the table whose region
    is among the selected compute regions, whose cost lies in the closed
    cost range and whose utilization lies in the closed utilization range;
    the storage view holds exactly the rows whose region is among the
    selected storage regions.  Both views are the table with rows left out. *)
Theorem filtered_views_exact
    (ec2_df : ComputeTable) (s3_df : StorageTable) (c : FilterCriteria) :
  (forall r, In r (ec2_filtered ec2_df c) <->
     In r ec2_df /\
     In (Region r) (selected_ec2_regions c) /\
     in_range (CostUSD r) (ec2_cost_range c) /\
     in_range (CPUUtilization r) (ec2_cpu_range c)) /\
  (forall r, In r (s3_filtered s3_df c) <->
     In r s3_df /\ In (SRegion r) (selected_s3_regions c)) /\
  Sublist (ec2_filtered ec2_df c) ec2_df /\
  Sublist (s3_filtered s3_df c) s3_df.
Proof.
  repeat split; try apply filter_Sublist.
  - apply filter_In in H. tauto.
  - apply filter_In in H. apply (ec2_keep_spec c r), H.
  - apply filter_In in H. apply (ec2_keep_spec c r), H.
  - apply filter_In in H. apply (ec2_keep_spec c r), H.
  - intros (H1 & H2). apply filter_In. split; [assumption|].
    now apply ec2_keep_spec.
  - apply filter_In in H. tauto.
  - apply filter_In in H. unfold s3_keep in H. apply isin_In, H.
  - intros (H1 & H2). apply filter_In. split; [assumption|].
    unfold s3_keep. now apply isin_In.
Qed.

Lemma filter_none {A : Type} (p : A -> bool) (l : list A) :
  (forall a, In a l -> p a = false) -> filter p l = [].
Proof.
  induction l as [|a l IH]; intro H; simpl.
  - reflexivity.
  - rewrite (H a (or_introl eq_refl)). apply IH.
    intros b Hb. apply H. now right.
Qed.

Lemma between_reversed (x : num) (lo hi : Q) :
  hi < lo -> between x (Some lo) (Some hi) = false.
Proof.
  intro Hlt. destruct x as [v|]; simpl; [|reflexivity].
  apply andb_false_iff.
  destruct (Qle_bool lo v) eqn:E1; [right | now left].
  apply Qle_bool_iff in E1.
  destruct (Qle_bool v hi) eqn:E2; [|reflexivity].
  apply Qle_bool_iff in E2.
  exfalso. apply (Qlt_irrefl hi).
  apply Qlt_le_trans with lo; [assumption|].
  now apply Qle_trans with v.
Qed.

(** C7.  An empty selection of regions gives an empty view, for the compute
    and for the storage table; a cost range or a utilization range whose
    lower bound exceeds its upper bound gives an empty compute view. *)
Theorem degenerate_criteria_empty_view
    (ec2_df : ComputeTable) (s3_df : StorageTable) (c : FilterCriteria) :
  (selected_ec2_regions c = [] -> ec2_filtered ec2_df c = []) /\
  (selected_s3_regions c = [] -> s3_filtered s3_df c = []) /\
  (forall lo hi, ec2_cost_range c = (Some lo, Some hi) -> hi < lo ->
     ec2_filtered ec2_df c = []) /\
  (forall lo hi, ec2_cpu_range c = (Some lo, Some hi) -> hi < lo ->
     ec2_filtered ec2_df c = []).
Proof.
  repeat split.
  - intro H. apply filter_none. intros r _. unfold ec2_keep.
    rewrite H. reflexivity.
  - intro H. apply filter_none. intros r _. unfold s3_keep.
    rewrite H. reflexivity.
  - intros lo hi H Hlt. apply filter_none. intros r _. unfold ec2_keep.
    rewrite H. simpl. rewrite (between_reversed _ _ _ Hlt).
    now rewrite andb_false_r.
  - intros lo hi H Hlt. apply filter_none. intros r _. unfold ec2_keep.
    rewrite H. simpl. rewrite (between_reversed _ _ _ Hlt).
    now rewrite andb_false_r.
Qed.

Lemma degenerate_criteria_empty_view_witness :
  ec2_filtered [mkCompute "i-1" (Some "us-east-1") (Some 3) (Some 4)]
               degenerate_demo = [] /\
  s3_filtered [mkStorage "logs" (Some "us-east-1") (Some 10) (Some 1)]
              degenerate_demo = [].
Proof.
  destruct (degenerate_criteria_empty_view
              [mkCompute "i-1" (Some "us-east-1") (Some 3) (Some 4)]
              [mkStorage "logs" (Some "us-east-1") (Some 10) (Some 1)]
              degenerate_demo) as (H1 & H2 & H3 & H4).
  split.
  - apply (H3 5 1); reflexivity.
  - apply H2. reflexivity.
Defined.

(** ** Sorting *)

Section Sorting.
Context {A : Type}.
Variable leb : A -> A -> bool.

Lemma insert_by_perm (a : A) (l : list A) :
  Permutation (insert_by leb a l) (a :: l).
Proof.
  induction l as [|b l IH]; simpl.
  - apply Permutation_refl.
  - destruct (leb a b).
    + apply Permutation_refl.
    + apply perm_trans with (b :: a :: l).
      * now apply perm_skip.
      * apply perm_swap.
Qed.

Lemma sort_by_perm (l : list A) : Permutation (sort_by leb l) l.
Proof.
  induction l as [|a l IH]; simpl.
  - apply perm_nil.
  - apply perm_trans with (a :: sort_by leb l).
    + apply insert_by_perm.
    + now apply perm_skip.
Qed.

Lemma sort_by_In (x : A) (l : list A) : In x (sort_by leb l) <-> In x l.
Proof.
  split; apply Permutation_in;
    [apply sort_by_perm | apply Permutation_sym, sort_by_perm].
Qed.

(** Sortedness, for a comparison that is total and transitive. *)
Hypothesis leb_total : forall a b, leb a b = false -> leb b a = true.
Hypothesis leb_trans :
  forall a b c, leb a b = true -> leb b c = true -> leb a c = true.

Lemma insert_by_sorted (a : A) (l : list A) :
  StronglySorted (fun a b => leb a b = true) l ->
  StronglySorted (fun a b => leb a b = true) (insert_by leb a l).
Proof.
  induction 1 as [|b l Hs IH Hb]; simpl.
  - constructor; constructor.
  - destruct (leb a b) eqn:E.
    + constructor.
      * now constructor.
      * constructor; [exact E|].
        eapply Forall_impl; [|exact Hb].
        intros c Hc. now apply leb_trans with b.
    + constructor; [exact IH|].
      apply Forall_forall. intros c Hc.
      apply (Permutation_in _ (insert_by_perm a l)) in Hc.
      destruct Hc as [<-|Hc].
      * now apply leb_total.
      * rewrite Forall_forall in Hb. now apply Hb.
Qed.

Lemma sort_by_sorted (l : list A) :
  StronglySorted (fun a b => leb a b = true) (sort_by leb l).
Proof.
  induction l as [|a l IH]; simpl.
  - constructor.
  - now apply insert_by_sorted.
Qed.
End Sorting.

(** Stability: rows of one class keep their table order, where a class is
    a set of rows that the comparison does not tell apart. *)
Section Stability.
Context {A : Type}.
Variable leb : A -> A -> bool.
Variable p : A -> bool.
Hypothesis class : forall a b, p a = true -> p b = true -> leb a b = true.


End Stability.

(** ** Region options *)

Lemma dropna_In {A : Type} (a : A) (s : list (option A)) :
  In a (dropna s) <-> In (Some a) s.
Proof.
  induction s as [|[b|] s IH]; simpl.
  - tauto.
  - rewrite IH. split; intros [H|H]; auto.
    + left. now subst.
    + left. now injection H.
  - rewrite IH. split; [auto | intros [H|H]; [discriminate | assumption]].
Qed.

Lemma unique_In (x : string) (s : list string) : In x (unique s) <-> In x s.
Proof.
  induction s as [|a s IH]; simpl.
  - tauto.
  - rewrite filter_In, IH. split.
    + intros [H|[H _]]; auto.
    + intros [H|H]; [now left|].
      destruct (String.eqb a x) eqn:E.
      * left. now apply String.eqb_eq.
      * right. split; [assumption | reflexivity].
  Qed.

Lemma unique_NoDup (s : list string) : NoDup (unique s).
Proof.
  induction s as [|a s IH]; simpl.
  - constructor.
  - constructor.
    + rewrite filter_In. intros [_ H].
      rewrite String.eqb_refl in H. discriminate.
    + now apply NoDup_filter.
Qed.

Lemma region_options_In (k : string) (col : list key) :
  In k (region_options col) <-> In (Some k) col.
Proof.
  unfold region_options, sorted_str.
  now rewrite sort_by_In, unique_In, dropna_In.
Qed.

Lemma region_options_NoDup (col : list key) : NoDup (region_options col).
Proof.
  unfold region_options, sorted_str.
  eapply Permutation_NoDup.
  - apply Permutation_sym, sort_by_perm.
  - apply unique_NoDup.
Qed.

Lemma from_options_notna (selected : list key) (options : list string)
    (c : key) :
  from_options selected options -> In c selected -> c <> None.
Proof.
  intros Hsel Hin. apply Hsel in Hin. apply in_map_iff in Hin.
  destruct Hin as [k [<- _]]. discriminate.
Qed.

Lemma default_is_widget_criteria
    (ec2_df : ComputeTable) (s3_df : StorageTable) :
  widget_criteria ec2_df s3_df (default_criteria ec2_df s3_df).
Proof. split; apply incl_refl. Qed.

(** ** [sort_values] and [nlargest] keep to the rows they are given *)

Lemma filter_partition_perm {A : Type} (p : A -> bool) (l : list A) :
  Permutation (filter p l ++ filter (fun a => negb (p a)) l) l.
Proof.
  induction l as [|a l IH]; simpl.
  - apply perm_nil.
  - destruct (p a); simpl.
    + now apply perm_skip.
    + apply Permutation_sym, Permutation_cons_app, Permutation_sym, IH.
Qed.

Lemma sort_values_perm {A : Type} (col : A -> num) (asc : bool) (s : list A) :
  Permutation (sort_values col asc s) s.
Proof.
  unfold sort_values.
  eapply perm_trans.
  - apply Permutation_app_tail, sort_by_perm.
  - eapply perm_trans;
      [|apply (filter_partition_perm (fun r => notna (col r)))].
    apply Permutation_app_head.
    erewrite filter_ext; [apply Permutation_refl|].
    intro a. unfold notna. now rewrite negb_involutive.
Qed.

Lemma sort_values_In {A : Type} (col : A -> num) (asc : bool) (s : list A)
    (x : A) :
  In x (sort_values col asc s) <-> In x s.
Proof.
  split; apply Permutation_in;
    [apply sort_values_perm | apply Permutation_sym, sort_values_perm].
Qed.

Lemma firstn_In {A : Type} (n : nat) (l : list A) (x : A) :
  In x (firstn n l) -> In x l.
Proof.
  intro H. rewrite <- (firstn_skipn n l). apply in_or_app. now left.
Qed.

Lemma nlargest_In {A : Type} (n : nat) (col : A -> num) (df : list A) (x : A) :
  In x (nlargest n col df) -> In x df.
Proof.
  unfold nlargest. intro H. apply firstn_In in H.
  now apply sort_values_In in H.
Qed.

(** C9.  With selections taken from the region options, no row with a
    missing region is in a filtered view, nor in a top-5 table built from
    it; this holds in particular for the default selection, which is all
    the options. *)
Theorem null_region_never_selected
    (ec2_df : ComputeTable) (s3_df : StorageTable) (c : FilterCriteria) :
  widget_criteria ec2_df s3_df c ->
  (forall r, In r (ec2_filtered ec2_df c) -> Region r <> None) /\
  (forall r, In r (s3_filtered s3_df c) -> SRegion r <> None) /\
  (forall r, In r (top_ec2 (ec2_filtered ec2_df c)) -> Region r <> None) /\
  (forall r, In r (top_s3 (s3_filtered s3_df c)) -> SRegion r <> None) /\
  (forall r, In r (ec2_filtered ec2_df (default_criteria ec2_df s3_df)) ->
     Region r <> None) /\
  (forall r, In r (s3_filtered s3_df (default_criteria ec2_df s3_df)) ->
     SRegion r <> None).
Proof.
  assert (Hec2 : forall c', widget_criteria ec2_df s3_df c' ->
            forall r, In r (ec2_filtered ec2_df c') -> Region r <> None).
  { intros c' [Hsel _] r Hr.
    apply filter_In in Hr. destruct Hr as [_ Hr].
    eapply from_options_notna; [exact Hsel | apply ec2_keep_spec, Hr]. }
  assert (Hs3 : forall c', widget_criteria ec2_df s3_df c' ->
            forall r, In r (s3_filtered s3_df c') -> SRegion r <> None).
  { intros c' [_ Hsel] r Hr.
    apply filter_In in Hr. destruct Hr as [_ Hr].
    eapply from_options_notna; [exact Hsel | apply isin_In, Hr]. }
  intro Hc. repeat split.
  - now apply Hec2.
  - now apply Hs3.
  - intros r Hr. unfold top_ec2 in Hr.
    apply sort_values_In, nlargest_In in Hr. now apply (Hec2 c).
  - intros r Hr. unfold top_s3 in Hr.
    apply sort_values_In, nlargest_In in Hr. now apply (Hs3 c).
  - apply Hec2, default_is_widget_criteria.
  - apply Hs3, default_is_widget_criteria.
Qed.

Lemma null_region_never_selected_witness :
  widget_criteria demo_ec2 demo_s3 demo_criteria /\
  Region (mkCompute "i-1" (Some "us-east-1") (Some 3) (Some 40)) <> None.
Proof.
  assert (H : widget_criteria demo_ec2 demo_s3 demo_criteria).
  { split; intros x [<-|[]]; vm_compute; auto. }
  split; [exact H|].
  apply (null_region_never_selected demo_ec2 demo_s3 demo_criteria H).
  vm_compute. now left.
Defined.

(** ** Default ranges *)

Lemma qmin_le_l (a b : Q) : qmin a b <= a.
Proof.
  unfold qmin. destruct (Qle_bool a b) eqn:E.
  - apply Qle_refl.
  - destruct (Qlt_le_dec b a) as [H|H].
    + now apply Qlt_le_weak.
    + apply Qle_bool_iff in H. congruence.
Qed.

Lemma qmin_le_r (a b : Q) : qmin a b <= b.
Proof.
  unfold qmin. destruct (Qle_bool a b) eqn:E.
  - now apply Qle_bool_iff.
  - apply Qle_refl.
Qed.

Lemma qmax_ge_l (a b : Q) : a <= qmax a b.
Proof.
  unfold qmax. destruct (Qle_bool a b) eqn:E.
  - now apply Qle_bool_iff.
  - apply Qle_refl.
Qed.

Lemma qmax_ge_r (a b : Q) : b <= qmax a b.
Proof.
  unfold qmax. destruct (Qle_bool a b) eqn:E.
  - apply Qle_refl.
  - destruct (Qlt_le_dec b a) as [H|H].
    + now apply Qlt_le_weak.
    + apply Qle_bool_iff in H. congruence.
Qed.

Lemma fold_qmin_le (l : list Q) (a x : Q) :
  In x (a :: l) -> fold_left qmin l a <= x.
Proof.
  revert a x. induction l as [|b l IH]; intros a x Hx; simpl.
  - destruct Hx as [<-|[]]. apply Qle_refl.
  - destruct Hx as [<-|[<-|Hx]].
    + apply Qle_trans with (qmin a b); [|apply qmin_le_l].
      apply IH. now left.
    + apply Qle_trans with (qmin a b); [|apply qmin_le_r].
      apply IH. now left.
    + apply IH. now right.
Qed.

Lemma fold_qmax_ge (l : list Q) (a x : Q) :
  In x (a :: l) -> x <= fold_left qmax l a.
Proof.
  revert a x. induction l as [|b l IH]; intros a x Hx; simpl.
  - destruct Hx as [<-|[]]. apply Qle_refl.
  - destruct Hx as [<-|[<-|Hx]].
    + apply Qle_trans with (qmax a b); [apply qmax_ge_l|].
      apply IH. now left.
    + apply Qle_trans with (qmax a b); [apply qmax_ge_r|].
      apply IH. now left.
    + apply IH. now right.
Qed.

Lemma between_min_max (s : list num) (v : Q) :
  In (Some v) s -> between (Some v) (series_min s) (series_max s) = true.
Proof.
  intro H. apply dropna_In in H.
  unfold series_min, series_max.
  destruct (dropna s) as [|a l]; [destruct H|].
  simpl. apply andb_true_iff. split; apply Qle_bool_iff.
  - now apply fold_qmin_le.
  - now apply fold_qmax_ge.
Qed.

Lemma isin_options (col : list key) (c : key) :
  In c col -> isin c (map Some (region_options col)) = notna c.
Proof.
  intro H. destruct c as [k|]; unfold notna; simpl.
  - apply isin_In, in_map, region_options_In, H.
  - apply not_true_is_false. intro E. apply isin_In, in_map_iff in E.
    destruct E as [k [E _]]. discriminate.
Qed.

Lemma clean_ec2_notna (raw : ComputeTable) (r : ComputeRow) :
  In r (clean_ec2 raw) ->
  exists cost cpu, CostUSD r = Some cost /\ CPUUtilization r = Some cpu.
Proof.
  intro H. apply filter_In in H. destruct H as [_ H].
  apply andb_true_iff in H. destruct H as [H1 H2].
  destruct (CostUSD r) as [cost|]; [|discriminate].
  destruct (CPUUtilization r) as [cpu|]; [|discriminate].
  now exists cost, cpu.
Qed.

Lemma filter_all {A : Type} (p : A -> bool) (l : list A) :
  (forall a, In a l -> p a = true) -> filter p l = l.
Proof.
  induction l as [|a l IH]; intro H; simpl.
  - reflexivity.
  - rewrite (H a (or_introl eq_refl)). f_equal. apply IH.
    intros b Hb. apply H. now right.
Qed.

Lemma slider_built (lo hi : num) (value built : num * num) :
  slider lo hi value = Built built -> built = value.
Proof.
  unfold slider. destruct lo as [a|], hi as [b|];
    try (intro H; now injection H).
  destruct (Qle_bool b a); [discriminate | intro H; now injection H].
Qed.

Lemma sidebar_built (ec2_df : ComputeTable) (s3_df : StorageTable)
    (c : FilterCriteria) :
  sidebar ec2_df s3_df = Built c -> c = default_criteria ec2_df s3_df.
Proof.
  unfold sidebar.
  destruct (slider _ _ (ec2_cost_range _)) as [cost|] eqn:E1; [|discriminate].
  destruct (slider _ _ (ec2_cpu_range _)) as [cpu|] eqn:E2; [|discriminate].
  apply slider_built in E1, E2. subst cost cpu.
  intro H. injection H as <-. reflexivity.
Qed.

(** C6, as the code has it.  Whenever the sidebar is built with its
    defaults, on the cleaned tables, the default criteria keep exactly the
    rows whose region is not missing, in table order; the view is the
    cleaned table itself when no row of it misses its region. *)
Theorem default_criteria_keep_rows_with_region
    (raw_ec2 : ComputeTable) (raw_s3 : StorageTable) (c : FilterCriteria) :
  let ec2_df := clean_ec2 raw_ec2 in
  let s3_df := clean_s3 raw_s3 in
  sidebar ec2_df s3_df = Built c ->
  ec2_filtered ec2_df c = filter (fun r => notna (Region r)) ec2_df /\
  s3_filtered s3_df c = filter (fun r => notna (SRegion r)) s3_df /\
  ((forall r, In r ec2_df -> Region r <> None) ->
     ec2_filtered ec2_df c = ec2_df) /\
  ((forall r, In r s3_df -> SRegion r <> None) ->
     s3_filtered s3_df c = s3_df).
Proof.
  intros ec2_df s3_df Hc. apply sidebar_built in Hc.
  assert (E1 : ec2_filtered ec2_df c
               = filter (fun r => notna (Region r)) ec2_df).
  { apply filter_ext_in. intros r Hr.
    destruct (clean_ec2_notna raw_ec2 r Hr) as (cost & cpu & Hcost & Hcpu).
    rewrite Hc. unfold ec2_keep, default_criteria, ec2_regions. simpl.
    rewrite isin_options by (now apply in_map).
    rewrite Hcost, Hcpu.
    rewrite !between_min_max.
    - now rewrite !andb_true_r.
    - rewrite <- Hcpu. now apply in_map.
    - rewrite <- Hcost. now apply in_map. }
  assert (E2 : s3_filtered s3_df c = filter (fun r => notna (SRegion r)) s3_df).
  { apply filter_ext_in. intros r Hr.
    rewrite Hc. unfold s3_keep, default_criteria, s3_regions. simpl.
    apply isin_options. now apply in_map. }
  repeat split; try assumption.
  - intro H. rewrite E1. apply filter_all. intros r Hr.
    specialize (H r Hr). now destruct (Region r).
  - intro H. rewrite E2. apply filter_all. intros r Hr.
    specialize (H r Hr). now destruct (SRegion r).
Qed.

Lemma default_criteria_keep_rows_with_region_witness :
  sidebar (clean_ec2 demo_ec2) (clean_s3 demo_s3)
  = Built (default_criteria (clean_ec2 demo_ec2) (clean_s3 demo_s3)) /\
  ec2_filtered (clean_ec2 demo_ec2)
    (default_criteria (clean_ec2 demo_ec2) (clean_s3 demo_s3))
  = filter (fun r => notna (Region r)) (clean_ec2 demo_ec2).
Proof.
  assert (H : sidebar (clean_ec2 demo_ec2) (clean_s3 demo_s3)
              = Built (default_criteria (clean_ec2 demo_ec2)
                                        (clean_s3 demo_s3)))
    by reflexivity.
  split; [exact H|].
  apply (default_criteria_keep_rows_with_region demo_ec2 demo_s3 _ H).
Defined.

(** C6, as the specification states it, fails on a cleaned table with a row
    whose region is missing: the sidebar is built, and its default criteria
    leave that row out. *)
Lemma default_criteria_not_identity :
  clean_ec2 demo_ec2 = demo_ec2 /\
  clean_s3 demo_s3 = demo_s3 /\
  sidebar demo_ec2 demo_s3 = Built (default_criteria demo_ec2 demo_s3) /\
  ec2_filtered demo_ec2 (default_criteria demo_ec2 demo_s3) <> demo_ec2 /\
  s3_filtered demo_s3 (default_criteria demo_ec2 demo_s3) <> demo_s3.
Proof.
  repeat split; try reflexivity;
    intro H; apply (f_equal (@List.length _)) in H; vm_compute in H;
    discriminate.
Qed.

(** ** Order of a sorted series *)

Lemma StronglySorted_app {A : Type} (R : A -> A -> Prop) (l1 l2 : list A) :
  StronglySorted R l1 -> StronglySorted R l2 ->
  (forall a b, In a l1 -> In b l2 -> R a b) ->
  StronglySorted R (l1 ++ l2).
Proof.
  intros H1 H2 H. induction H1 as [|a l1 Hs IH Ha]; simpl.
  - exact H2.
  - constructor.
    + apply IH. intros x y Hx. apply H. now right.
    + apply Forall_app. split; [exact Ha|].
      apply Forall_forall. intros y Hy. apply H; [now left | exact Hy].
Qed.

Lemma StronglySorted_weaken {A : Type} (R R' : A -> A -> Prop) (l : list A) :
  (forall a b, In a l -> In b l -> R a b -> R' a b) ->
  StronglySorted R l -> StronglySorted R' l.
Proof.
  intros H Hs. induction Hs as [|a l Hs IH Ha].
  - constructor.
  - constructor.
    + apply IH. intros x y Hx Hy. apply H; now right.
    + rewrite Forall_forall in *. intros y Hy.
      apply H; [now left | now right | now apply Ha].
Qed.

Lemma StronglySorted_map {A B : Type} (f : A -> B) (R : B -> B -> Prop)
    (l : list A) :
  StronglySorted (fun a b => R (f a) (f b)) l -> StronglySorted R (map f l).
Proof.
  induction 1 as [|a l Hs IH Ha]; simpl; constructor.
  - exact IH.
  - rewrite Forall_forall in *. intros y Hy.
    apply in_map_iff in Hy. destruct Hy as [x [<- Hx]]. now apply Ha.
Qed.

Lemma StronglySorted_all {A : Type} (R : A -> A -> Prop) (l : list A) :
  (forall a b, In a l -> In b l -> R a b) -> StronglySorted R l.
Proof.
  induction l as [|a l IH]; intro H; constructor.
  - apply IH. intros x y Hx Hy. apply H; now right.
  - apply Forall_forall. intros y Hy. apply H; [now left | now right].
Qed.

Lemma sort_values_desc_sorted {A : Type} (col : A -> num) (s : list A) :
  StronglySorted (fun a b => num_ge (col a) (col b)) (sort_values col false s).
Proof.
  unfold sort_values. apply StronglySorted_app.
  - eapply StronglySorted_weaken; [|apply sort_by_sorted].
    + intros a b Ha Hb Hab.
      apply sort_by_In, filter_In in Ha, Hb.
      destruct Ha as [_ Ha], Hb as [_ Hb].
      cbv beta in Hab. unfold qleb_desc in Hab.
      destruct (col a) as [x|], (col b) as [y|]; try discriminate.
      simpl in *. now apply Qle_bool_iff.
    + intros a b E. unfold qleb_desc in *.
      destruct (Qlt_le_dec (num_get (col a)) (num_get (col b))) as [H|H].
      * apply Qle_bool_iff. now apply Qlt_le_weak.
      * apply Qle_bool_iff in H. congruence.
    + intros a b c H1 H2. unfold qleb_desc in *.
      apply Qle_bool_iff in H1, H2. apply Qle_bool_iff.
      now apply Qle_trans with (num_get (col b)).
  - apply StronglySorted_all. intros a b _ Hb.
    apply filter_In in Hb. destruct Hb as [_ Hb].
    destruct (col b); [discriminate|]. now destruct (col a).
  - intros a b _ Hb.
    apply filter_In in Hb. destruct Hb as [_ Hb].
    destruct (col b); [discriminate|]. now destruct (col a).
Qed.

(** ** Grouped statistics *)

Lemma group_agg_In {A : Type} (by_ : A -> key) (col : A -> num)
    (agg : list num -> num) (df : list A) (k : string) (v : num) :
  In (k, v) (group_agg by_ col agg df) <->
  (exists r, In r df /\ by_ r = Some k) /\
  v = agg (map col (filter (fun r => key_eqb (by_ r) (Some k)) df)).
Proof.
  unfold group_agg, groupby. rewrite map_map, in_map_iff. simpl. split.
  - intros [k' [E Hk]]. injection E as -> ->.
    apply region_options_In, in_map_iff in Hk.
    destruct Hk as [r [Hr Hin]]. split; [now exists r | reflexivity].
  - intros [[r [Hin Hr]] ->]. exists k. split; [reflexivity|].
    apply region_options_In, in_map_iff. now exists r.
Qed.

Lemma group_agg_keys {A : Type} (by_ : A -> key) (col : A -> num)
    (agg : list num -> num) (df : list A) :
  map fst (group_agg by_ col agg df) = region_options (map by_ df).
Proof.
  unfold group_agg, groupby. rewrite !map_map. simpl. apply map_id.
Qed.

Lemma grouped_series_spec {A : Type} (by_ : A -> key) (col : A -> num)
    (agg : list num -> num) (df : list A) :
  let series := sort_values snd false (group_agg by_ col agg df) in
  (forall k v, In (k, v) series <->
     (exists r, In r df /\ by_ r = Some k) /\
     v = agg (map col (filter (fun r => key_eqb (by_ r) (Some k)) df))) /\
  NoDup (map fst series) /\
  StronglySorted num_ge (map snd series).
Proof.
  intro series. repeat split.
  - apply sort_values_In, group_agg_In in H. apply H.
  - apply sort_values_In, group_agg_In in H. apply H.
  - intro H. apply sort_values_In, group_agg_In. exact H.
  - eapply Permutation_NoDup.
    + apply Permutation_map, Permutation_sym, sort_values_perm.
    + rewrite group_agg_keys. apply region_options_NoDup.
  - apply StronglySorted_map, sort_values_desc_sorted.
Qed.

(** C3.  The series of mean cost per region has one entry per region that
    occurs in the view, its value is the mean of [CostUSD] over the rows
    whose [Region] equals that key, and the entries come in descending order
    of value; likewise for the total of [TotalSizeGB] per region.  On rows
    A:10, B:5, A:20 the means are A: 15, B: 5, in that order. *)
Theorem group_stat_sorted_descending
    (ec2_view : ComputeTable) (s3_view : StorageTable) :
  ((forall k v, In (k, v) (avg_cost_region ec2_view) <->
      (exists r, In r ec2_view /\ Region r = Some k) /\
      v = series_mean
            (map CostUSD
               (filter (fun r => key_eqb (Region r) (Some k)) ec2_view))) /\
   NoDup (map fst (avg_cost_region ec2_view)) /\
   StronglySorted num_ge (map snd (avg_cost_region ec2_view))) /\
  ((forall k v, In (k, v) (storage_by_region s3_view) <->
      (exists r, In r s3_view /\ SRegion r = Some k) /\
      v = series_sum
            (map TotalSizeGB
               (filter (fun r => key_eqb (SRegion r) (Some k)) s3_view))) /\
   NoDup (map fst (storage_by_region s3_view)) /\
   StronglySorted num_ge (map snd (storage_by_region s3_view))) /\
  avg_cost_region
    [mkCompute "i-1" (Some "A") (Some 10) (Some 50);
     mkCompute "i-2" (Some "B") (Some 5) (Some 50);
     mkCompute "i-3" (Some "A") (Some 20) (Some 50)]
  = [("A", Some 15); ("B", Some 5)].
Proof.
  split; [|split].
  - apply (grouped_series_spec Region CostUSD series_mean).
  - apply (grouped_series_spec SRegion TotalSizeGB series_sum).
  - reflexivity.
Qed.

(** ** Top-k selection *)



Lemma filter_filter_implied {A : Type} (p q : A -> bool) (l : list A) :
  (forall a, p a = true -> q a = true) -> filter p (filter q l) = filter p l.
Proof.
  intro H. induction l as [|a l IH]; simpl; [reflexivity|].
  destruct (q a) eqn:Eq; simpl.
  - now rewrite IH.
  - destruct (p a) eqn:Ep; [|exact IH].
    rewrite (H a Ep) in Eq. discriminate.
Qed.




(** ** The extremal group *)

Lemma dropna_series_In (s : list (string * num)) (k : string) (v : Q) :
  In (k, v) (dropna_series s) <-> In (k, Some v) s.
Proof.
  induction s as [|[k' [v'|]] s IH]; simpl.
  - tauto.
  - rewrite IH.
    split; (intros [H|H]; [left; injection H as -> ->; reflexivity|now right]).
  - rewrite IH. split; [auto | intros [H|H]; [discriminate | assumption]].
Qed.

Lemma dropna_map_snd (s : list (string * num)) :
  dropna (map snd s) = map snd (dropna_series s).
Proof.
  induction s as [|[k [v|]] s IH]; simpl; congruence.
Qed.

Lemma fold_pick_spec (l : list (string * Q)) (b : string * Q) :
  let best :=
    fold_left (fun best x => if Qle_bool (snd x) (snd best) then best else x)
              l b in
  In best (b :: l) /\ forall x, In x (b :: l) -> snd x <= snd best.
Proof.
  revert b. induction l as [|a l IH]; intro b; simpl.
  - split; [now left|]. intros x [<-|[]]. apply Qle_refl.
  - destruct (Qle_bool (snd a) (snd b)) eqn:E.
    + destruct (IH b) as [Hin Hub]. split.
      * destruct Hin as [H|H]; [now left | right; now right].
      * intros x [Hx|[Hx|Hx]]; try subst x.
        -- apply Hub. now left.
        -- apply Qle_trans with (snd b).
           ++ now apply Qle_bool_iff.
           ++ apply Hub. now left.
        -- apply Hub. now right.
    + destruct (IH a) as [Hin Hub]. split.
      * now right.
      * intros x [Hx|Hx].
        -- subst x. apply Qle_trans with (snd a).
           ++ destruct (Qlt_le_dec (snd b) (snd a)) as [H|H].
              ** now apply Qlt_le_weak.
              ** apply Qle_bool_iff in H. congruence.
           ++ apply Hub. now left.
        -- now apply Hub.
Qed.

Lemma fold_qmax_In (l : list Q) (a : Q) : In (fold_left qmax l a) (a :: l).
Proof.
  revert a. induction l as [|b l IH]; intro a; simpl.
  - now left.
  - destruct (IH (qmax a b)) as [H|H].
    + rewrite <- H. unfold qmax. destruct (Qle_bool a b); auto.
    + right. now right.
Qed.

Lemma Qred_eq_of_Qeq (x y : Q) : Qred x = x -> Qred y = y -> x == y -> x = y.
Proof.
  intros Hx Hy E. rewrite <- Hx, <- Hy. now apply Qred_complete.
Qed.

Lemma Qred_Qred (q : Q) : Qred (Qred q) = Qred q.
Proof. apply Qred_complete, Qred_correct. Qed.

(** On a series that holds a number, [idxmax] and [max] name an entry of
    the series that no other entry exceeds. *)
Lemma series_extremum (s : list (string * num)) :
  (exists k v, In (k, Some v) s) ->
  (forall k v, In (k, Some v) s -> Qred v = v) ->
  exists r v,
    idxmax s = Ok r /\ series_max (map snd s) = Some v /\
    In (r, Some v) s /\
    forall r' v', In (r', Some v') s -> v' <= v.
Proof.
  intros [k0 [v0 H0]] Hred.
  apply dropna_series_In in H0.
  unfold idxmax, series_max. rewrite dropna_map_snd.
  destruct (dropna_series s) as [|b l] eqn:E; [destruct H0|].
  destruct (fold_pick_spec l b) as [Hin Hub].
  set (best := fold_left _ l b) in *.
  simpl map.
  pose proof (fold_qmax_In (map snd l) (snd b)) as Hm.
  pose proof (fold_qmax_ge (map snd l) (snd b)) as Hmub.
  set (m := fold_left qmax (map snd l) (snd b)) in *.
  change (snd b :: map snd l) with (map snd (b :: l)) in Hm, Hmub.
  assert (Hbest : In (fst best, Some (snd best)) s).
  { apply dropna_series_In. rewrite E. now rewrite <- surjective_pairing. }
  apply in_map_iff in Hm. destruct Hm as [[km vm] [Em Hm]]. simpl in Em.
  assert (Hmv : m = snd best).
  { apply Qred_eq_of_Qeq.
    - apply (Hred km). apply dropna_series_In. rewrite E. now rewrite <- Em.
    - now apply (Hred (fst best)).
    - apply Qle_antisym.
      + rewrite <- Em. now apply (Hub (km, vm)).
      + apply Hmub. now apply in_map. }
  exists (fst best), (snd best). repeat split.
  - simpl. fold m. now rewrite Hmv.
  - exact Hbest.
  - intros r' v' H'. apply dropna_series_In in H'. rewrite E in H'.
    now apply (Hub (r', v')).
Qed.

Lemma series_mean_some (s : list num) (v : Q) :
  In (Some v) s -> exists m, series_mean s = Some m.
Proof.
  intro H. apply dropna_In in H. unfold series_mean.
  destruct (dropna s); [destruct H | eauto].
Qed.

Lemma series_mean_red (s : list num) (v : Q) :
  series_mean s = Some v -> Qred v = v.
Proof.
  unfold series_mean. destruct (dropna s) as [|q l]; [discriminate|].
  intro H.
  assert (E : v = Qred (qsum (q :: l)
                        / inject_Z (Z.of_nat (List.length (q :: l)))))
    by congruence.
  rewrite E. apply Qred_Qred.
Qed.

Lemma series_sum_red (s : list num) (v : Q) :
  series_sum s = Some v -> Qred v = v.
Proof.
  unfold series_sum, qsum. intro H.
  assert (E : v = Qred (fold_right Qplus 0 (dropna s))) by congruence.
  rewrite E. apply Qred_Qred.
Qed.

Lemma empty_false {A : Type} (l : list A) : l <> [] -> empty l = false.
Proof. destruct l; [congruence | reflexivity]. Qed.

(** The compute view of a non-empty selection: some region with the largest
    mean cost, and that mean. *)
Lemma ec2_expensive_spec (ec2_view : ComputeTable) :
  ec2_view <> [] ->
  (forall r, In r ec2_view -> Region r <> None /\ CostUSD r <> None) ->
  exists k v,
    ec2_expensive ec2_view = Ok (Some (k, Some v)) /\
    In (k, Some v) (group_agg Region CostUSD series_mean ec2_view) /\
    forall k' v', In (k', Some v')
                     (group_agg Region CostUSD series_mean ec2_view) ->
                  v' <= v.
Proof.
  intros Hne Hwf.
  unfold ec2_expensive. rewrite (empty_false _ Hne). simpl.
  destruct (series_extremum (avg_cost_region ec2_view)) as (k & v & H1 & H2 & H3 & H4).
  - destruct ec2_view as [|r0 view]; [congruence|].
    destruct (Hwf r0 (or_introl eq_refl)) as [Hr Hc].
    destruct (Region r0) as [k0|] eqn:Ek; [|congruence].
    destruct (CostUSD r0) as [c0|] eqn:Ec; [|congruence].
    destruct (series_mean_some
                (map CostUSD
                   (filter (fun r => key_eqb (Region r) (Some k0)) (r0 :: view)))
                c0) as [m Hm].
    { rewrite <- Ec. apply in_map, filter_In. split; [now left|].
      rewrite Ek. now apply key_eqb_eq. }
    exists k0, m. apply sort_values_In, group_agg_In. split.
    + exists r0. split; [now left | exact Ek].
    + now rewrite Hm.
  - intros k v Hin. apply sort_values_In, group_agg_In in Hin.
    destruct Hin as [_ Hv]. symmetry in Hv. now apply series_mean_red in Hv.
  - exists k, v. rewrite H1. simpl. rewrite H2. repeat split.
    + now apply sort_values_In in H3.
    + intros k' v' H'. apply (H4 k'). now apply sort_values_In.
Qed.

(** The storage view of a non-empty selection: some region with the largest
    total size, and that total. *)
Lemma s3_heaviest_spec (s3_view : StorageTable) :
  s3_view <> [] ->
  (forall r, In r s3_view -> SRegion r <> None) ->
  exists k v,
    s3_heaviest s3_view = Ok (Some (k, Some v)) /\
    In (k, Some v) (group_agg SRegion TotalSizeGB series_sum s3_view) /\
    forall k' v', In (k', Some v')
                     (group_agg SRegion TotalSizeGB series_sum s3_view) ->
                  v' <= v.
Proof.
  intros Hne Hwf.
  unfold s3_heaviest. rewrite (empty_false _ Hne). simpl.
  destruct (series_extremum (storage_by_region s3_view)) as (k & v & H1 & H2 & H3 & H4).
  - destruct s3_view as [|r0 view]; [congruence|].
    pose proof (Hwf r0 (or_introl eq_refl)) as Hr.
    destruct (SRegion r0) as [k0|] eqn:Ek; [|congruence].
    eexists k0, _. apply sort_values_In, group_agg_In. split.
    + exists r0. split; [now left | exact Ek].
    + unfold series_sum. reflexivity.
  - intros k v Hin. apply sort_values_In, group_agg_In in Hin.
    destruct Hin as [_ Hv]. symmetry in Hv. now apply series_sum_red in Hv.
  - exists k, v. rewrite H1. simpl. rewrite H2. repeat split.
    + now apply sort_values_In in H3.
    + intros k' v' H'. apply (H4 k'). now apply sort_values_In.
Qed.

(** ** Number formatting *)

(** The integer chosen by the rounding is within one half of the number. *)
Lemma round_half_even_close (q : Q) :
  Qabs (inject_Z (round_half_even q) - q) <= 1 # 2.
Proof.
  apply Qabs_Qle_condition.
  destruct q as [p d]. unfold round_half_even. simpl Qnum. simpl Qden.
  pose proof (Z.div_mod p (Zpos d) ltac:(lia)) as Hp.
  pose proof (Z.mod_pos_bound p (Zpos d) ltac:(lia)) as Hr.
  set (a := (p / Zpos d)%Z) in *. set (r := (p mod Zpos d)%Z) in *.
  destruct (Z.compare_spec (2 * r) (Zpos d)) as [E|E|E];
    [destruct (Z.even a)| |];
    unfold Qle, Qminus, Qplus, Qopp, inject_Z; simpl;
    split; nia.
Qed.

Lemma two_digits (z : Z) :
  (0 <= z < 100)%Z ->
  exists d1 d2,
    (if (z <? 10)%Z then "0" else "") ++ digits z = String d1 (String d2 "").
Proof.
  intro H.
  rewrite <- (Z2Nat.id z) by lia.
  assert (Hn : (Z.to_nat z < 100)%nat) by lia.
  revert Hn. generalize (Z.to_nat z). intro n.
  do 100 (destruct n as [|n]; [intros _; eexists; eexists; reflexivity|]).
  lia.
Qed.

(** [.2f] prints a sign, the integer part, a point and exactly two
    characters; the number printed is the hundredth nearest to the value. *)
Lemma fmt_2f_two_decimals (q : Q) :
  let m := round_half_even (Qabs q * 100) in
  Qabs (inject_Z m - Qabs q * 100) <= 1 # 2 /\
  exists d1 d2,
    fmt_2f (Some q)
    = sign_of q ++ digits (m / 100) ++ "." ++ String d1 (String d2 "").
Proof.
  intro m. split; [apply round_half_even_close|].
  destruct (two_digits (m mod 100)) as (d1 & d2 & E).
  - apply Z.mod_pos_bound. lia.
  - exists d1, d2. unfold fmt_2f. fold m. now rewrite E.
Qed.

Lemma widget_view_ec2 (ec2_df : ComputeTable) (s3_df : StorageTable)
    (c : FilterCriteria) (r : ComputeRow) :
  widget_criteria ec2_df s3_df c -> In r (ec2_filtered ec2_df c) ->
  In r ec2_df /\ Region r <> None /\ CostUSD r <> None.
Proof.
  intros [Hsel _] Hr. apply filter_In in Hr. destruct Hr as [Hin Hr].
  apply ec2_keep_spec in Hr. destruct Hr as (H1 & H2 & _).
  repeat split.
  - exact Hin.
  - eapply from_options_notna; eassumption.
  - destruct H2 as (v & _ & _ & E & _). congruence.
Qed.

Lemma widget_view_s3 (ec2_df : ComputeTable) (s3_df : StorageTable)
    (c : FilterCriteria) (r : StorageRow) :
  widget_criteria ec2_df s3_df c -> In r (s3_filtered s3_df c) ->
  In r s3_df /\ SRegion r <> None.
Proof.
  intros [_ Hsel] Hr. apply filter_In in Hr. destruct Hr as [Hin Hr].
  split; [exact Hin|].
  eapply from_options_notna; [exact Hsel | apply isin_In, Hr].
Qed.

(** ** The placeholder test *)

(** C2.  The pattern of a dynamic strategy row is chosen by the truth value
    of the region label, not by the emptiness of the view.  On two tables
    whose Region column is the integer 0 throughout, with every widget at
    its default, both views hold every row of their table and the lookups
    find region 0 with mean cost 2 and total size 40; yet both dynamic rows
    carry the placeholder, because the label 0 is false.  A label 7 in the
    same place is printed. *)
Theorem placeholder_on_nonempty_view :
  clean_ec2 zero_region_ec2 = zero_region_ec2 /\
  clean_s3 zero_region_s3 = zero_region_s3 /\
  sidebar zero_region_ec2 zero_region_s3
  = Built (default_criteria zero_region_ec2 zero_region_s3) /\
  ec2_filtered zero_region_ec2
    (default_criteria zero_region_ec2 zero_region_s3) = zero_region_ec2 /\
  s3_filtered zero_region_s3
    (default_criteria zero_region_ec2 zero_region_s3) = zero_region_s3 /\
  ec2_expensive zero_region_ec2 = Ok (Some ("0", Some 2)) /\
  s3_heaviest zero_region_s3 = Ok (Some ("0", Some 40)) /\
  strategies_as int64 int64 zero_region_ec2 zero_region_s3
  = Ok [ec2_dynamic_row_as int64 (Some ("0", Some 2)); ec2_static_row;
        s3_dynamic_row_as int64 (Some ("0", Some 40)); s3_static_row] /\
  Pattern_Observed (ec2_dynamic_row_as int64 (Some ("0", Some 2)))
  = "No EC2 data for current filters" /\
  Pattern_Observed (s3_dynamic_row_as int64 (Some ("0", Some 40)))
  = "No S3 data for current filters" /\
  Pattern_Observed (ec2_dynamic_row_as int64 (Some ("7", Some 2)))
  = "Highest avg hourly cost in region 7 (~2.00 USD/hr)" /\
  (forall value, ec2_observed (PyInt 0) value
                 = "No EC2 data for current filters") /\
  (forall value, s3_observed (PyInt 0) value
                 = "No S3 data for current filters").
Proof.
  repeat split.
Qed.

(** ** KPIs on an empty view *)

(** C5.  When the compute view is empty the average-cost KPI is the text
    0.00, and when the storage view is empty the total-storage KPI is the
    text 0.  The text comes from the emptiness test and not from the
    aggregate: the mean of no rows is NaN, which would print as nan; and
    whenever the compute view is not empty its mean cost is a number. *)
Theorem kpi_empty_view_guarded
    (ec2_df : ComputeTable) (s3_df : StorageTable) (c : FilterCriteria) :
  (ec2_filtered ec2_df c = [] ->
     out_avg_ec2_cost (render ec2_df s3_df c) = "0.00") /\
  (s3_filtered s3_df c = [] ->
     out_total_s3_storage (render ec2_df s3_df c) = "0") /\
  kpi_avg_ec2_cost [] = "0.00" /\
  kpi_total_s3_storage [] = "0" /\
  series_mean (map CostUSD []) = None /\
  fmt_2f (series_mean (map CostUSD [])) = "nan" /\
  (ec2_filtered ec2_df c <> [] ->
     exists q,
       series_mean (map CostUSD (ec2_filtered ec2_df c)) = Some q /\
       out_avg_ec2_cost (render ec2_df s3_df c) = fmt_2f (Some q)).
Proof.
  split; [|split]; [| |repeat split].
  - intro H. simpl. now rewrite H.
  - intro H. simpl. now rewrite H.
  - intro Hne. simpl. unfold kpi_avg_ec2_cost.
    rewrite (empty_false _ Hne). simpl.
    destruct (ec2_filtered ec2_df c) as [|r view] eqn:E; [congruence|].
    assert (Hr : In r (ec2_filtered ec2_df c)) by (rewrite E; now left).
    apply filter_In in Hr. destruct Hr as [_ Hr].
    apply ec2_keep_spec in Hr. destruct Hr as (_ & (v & _ & _ & Ev & _) & _).
    destruct (series_mean_some (map CostUSD (r :: view)) v) as [q Hq].
    + rewrite <- Ev. apply in_map. now left.
    + exists q. now rewrite Hq.
Qed.

Lemma kpi_empty_view_guarded_witness :
  out_avg_ec2_cost (render demo_ec2 demo_s3 degenerate_demo) = "0.00" /\
  out_total_s3_storage (render demo_ec2 demo_s3 degenerate_demo) = "0".
Proof.
  destruct (kpi_empty_view_guarded demo_ec2 demo_s3 degenerate_demo)
    as (H1 & H2 & _).
  split; [apply H1 | apply H2]; reflexivity.
Defined.

(** ** The two entities do not interfere *)

Lemma ec2_filtered_ext (ec2_df : ComputeTable) (c1 c2 : FilterCriteria) :
  selected_ec2_regions c1 = selected_ec2_regions c2 ->
  ec2_cost_range c1 = ec2_cost_range c2 ->
  ec2_cpu_range c1 = ec2_cpu_range c2 ->
  ec2_filtered ec2_df c1 = ec2_filtered ec2_df c2.
Proof.
  intros H1 H2 H3. apply filter_ext. intro r. unfold ec2_keep.
  now rewrite H1, H2, H3.
Qed.

Lemma s3_filtered_ext (s3_df : StorageTable) (c1 c2 : FilterCriteria) :
  selected_s3_regions c1 = selected_s3_regions c2 ->
  s3_filtered s3_df c1 = s3_filtered s3_df c2.
Proof.
  intro H. apply filter_ext. intro r. unfold s3_keep. now rewrite H.
Qed.

Lemma widget_strategies_ok (ec2_df : ComputeTable) (s3_df : StorageTable)
    (c : FilterCriteria) :
  widget_criteria ec2_df s3_df c ->
  exists e s,
    ec2_expensive (ec2_filtered ec2_df c) = Ok e /\
    s3_heaviest (s3_filtered s3_df c) = Ok s.
Proof.
  intro Hw.
  assert (He : exists e, ec2_expensive (ec2_filtered ec2_df c) = Ok e).
  { destruct (ec2_filtered ec2_df c) as [|r0 view] eqn:E.
    - now exists None.
    - rewrite <- E.
      destruct (ec2_expensive_spec (ec2_filtered ec2_df c))
        as (k & v & H & _).
      + rewrite E. discriminate.
      + intros r Hr. now apply (widget_view_ec2 ec2_df s3_df c r Hw).
      + eauto. }
  assert (Hs : exists s, s3_heaviest (s3_filtered s3_df c) = Ok s).
  { destruct (s3_filtered s3_df c) as [|r0 view] eqn:E.
    - now exists None.
    - rewrite <- E.
      destruct (s3_heaviest_spec (s3_filtered s3_df c)) as (k & v & H & _).
      + rewrite E. discriminate.
      + intros r Hr. now apply (widget_view_s3 ec2_df s3_df c r Hw).
      + eauto. }
  destruct He as [e He], Hs as [s Hs]. now exists e, s.
Qed.

Lemma widget_strategy_rows (ec2_df : ComputeTable) (s3_df : StorageTable)
    (c : FilterCriteria) (e s : option (string * num)) :
  ec2_expensive (ec2_filtered ec2_df c) = Ok e ->
  s3_heaviest (s3_filtered s3_df c) = Ok s ->
  strategy_row (render ec2_df s3_df c) 0 = Some (ec2_dynamic_row e) /\
  strategy_row (render ec2_df s3_df c) 2 = Some (s3_dynamic_row s).
Proof.
  intros He Hs. unfold strategy_row, render, strategies, strategies_as.
  cbn [out_strategies]. rewrite He. cbn [bind]. rewrite Hs. cbn [bind].
  now split.
Qed.

(** C10.  For selections made in the widgets: two criteria that agree on
    the compute regions, the cost range and the utilization range give the
    same compute view, compute KPIs, mean cost per region, top-5 EC2 table
    and EC2 strategy row, whatever their storage regions; two criteria that
    agree on the storage regions give the same storage view, storage KPIs,
    total size per region, top-5 S3 table and S3 strategy row, whatever
    their compute fields. *)
Theorem entities_do_not_interfere
    (ec2_df : ComputeTable) (s3_df : StorageTable) (c1 c2 : FilterCriteria) :
  widget_criteria ec2_df s3_df c1 ->
  widget_criteria ec2_df s3_df c2 ->
  (selected_ec2_regions c1 = selected_ec2_regions c2 ->
   ec2_cost_range c1 = ec2_cost_range c2 ->
   ec2_cpu_range c1 = ec2_cpu_range c2 ->
   compute_outputs (render ec2_df s3_df c1)
   = compute_outputs (render ec2_df s3_df c2)) /\
  (selected_s3_regions c1 = selected_s3_regions c2 ->
   storage_outputs (render ec2_df s3_df c1)
   = storage_outputs (render ec2_df s3_df c2)).
Proof.
  intros Hw1 Hw2.
  destruct (widget_strategies_ok ec2_df s3_df c1 Hw1) as (e1 & s1 & He1 & Hs1).
  destruct (widget_strategies_ok ec2_df s3_df c2 Hw2) as (e2 & s2 & He2 & Hs2).
  destruct (widget_strategy_rows ec2_df s3_df c1 e1 s1 He1 Hs1) as [R1 R1'].
  destruct (widget_strategy_rows ec2_df s3_df c2 e2 s2 He2 Hs2) as [R2 R2'].
  split.
  - intros H1 H2 H3. unfold compute_outputs. rewrite R1, R2.
    pose proof (ec2_filtered_ext ec2_df c1 c2 H1 H2 H3) as E.
    rewrite E in He1. rewrite He1 in He2. injection He2 as ->.
    simpl. now rewrite E.
  - intro H. unfold storage_outputs. rewrite R1', R2'.
    pose proof (s3_filtered_ext s3_df c1 c2 H) as E.
    rewrite E in Hs1. rewrite Hs1 in Hs2. injection Hs2 as ->.
    simpl. now rewrite E.
Qed.

Lemma entities_do_not_interfere_witness :
  compute_outputs (render demo_ec2 demo_s3 demo_criteria)
  = compute_outputs (render demo_ec2 demo_s3 demo_criteria_no_s3).
Proof.
  apply (entities_do_not_interfere demo_ec2 demo_s3
           demo_criteria demo_criteria_no_s3).
  - split; intros x [<-|[]]; vm_compute; auto.
  - split; [intros x [<-|[]]; vm_compute; auto | intros x []].
  - reflexivity.
  - reflexivity.
  - reflexivity.
Defined.


(** * Further properties of the script *)

(** ** Cleaning *)

Lemma fillna0_notna (c : num) : fillna0 c <> None.
Proof. destruct c; discriminate. Qed.

Lemma fillna0_idem (c : num) : fillna0 (fillna0 c) = fillna0 c.
Proof. now destruct c. Qed.

(** X1.  After cleaning, the compute table is the raw table without the
    rows that miss a cost or a utilization, so every remaining row holds
    both numbers; the storage table keeps every row, with its name, region
    and size untouched, a cost of 0 where it was missing and the cost it had
    otherwise.  Cleaning a cleaned table changes nothing. *)
Theorem cleaning_invariants (raw_ec2 : ComputeTable) (raw_s3 : StorageTable) :
  Sublist (clean_ec2 raw_ec2) raw_ec2 /\
  (forall r, In r (clean_ec2 raw_ec2) <->
     In r raw_ec2 /\ CostUSD r <> None /\ CPUUtilization r <> None) /\
  clean_ec2 (clean_ec2 raw_ec2) = clean_ec2 raw_ec2 /\
  List.length (clean_s3 raw_s3) = List.length raw_s3 /\
  map BucketName (clean_s3 raw_s3) = map BucketName raw_s3 /\
  map SRegion (clean_s3 raw_s3) = map SRegion raw_s3 /\
  map TotalSizeGB (clean_s3 raw_s3) = map TotalSizeGB raw_s3 /\
  map SCostUSD (clean_s3 raw_s3) = map fillna0 (map SCostUSD raw_s3) /\
  (forall r, In r (clean_s3 raw_s3) -> SCostUSD r <> None) /\
  clean_s3 (clean_s3 raw_s3) = clean_s3 raw_s3.
Proof.
  split; [apply filter_Sublist|].
  split.
  { intro r. unfold clean_ec2. rewrite filter_In, andb_true_iff.
    unfold notna. destruct (CostUSD r), (CPUUtilization r); simpl;
      intuition congruence. }
  split.
  { unfold clean_ec2. apply filter_all. intros r Hr.
    now apply filter_In in Hr. }
  unfold clean_s3.
  split; [apply length_map|].
  rewrite !map_map. simpl.
  repeat split.
  - intros r Hr. apply in_map_iff in Hr. destruct Hr as [r0 [<- _]].
    apply fillna0_notna.
  - apply map_ext. intro r. simpl. now rewrite fillna0_idem.
Qed.

(** ** Region options *)

Lemma string_leb_false (a b : string) :
  String.leb a b = false -> String.leb b a = true.
Proof.
  intro H. destruct (String.leb_total a b) as [E|E]; congruence.
Qed.

Lemma string_leb_lt (a b : string) :
  String.leb a b = true <-> a = b \/ OrderedTypeEx.String_as_OT.lt a b.
Proof.
  unfold String.leb.
  pose proof (OrderedTypeEx.String_as_OT.cmp_eq a b) as He.
  pose proof (OrderedTypeEx.String_as_OT.cmp_lt a b) as Hl.
  pose proof (OrderedTypeEx.String_as_OT.cmp_antisym a b) as Ha.
  pose proof (OrderedTypeEx.String_as_OT.cmp_lt b a) as Hl'.
  unfold OrderedTypeEx.String_as_OT.cmp in *.
  destruct (String.compare a b) eqn:E.
  - split; [intros _; left; now apply He | reflexivity].
  - split; [intros _; right; now apply Hl | reflexivity].
  - split; [discriminate|]. intros [H|H].
    + apply He in H. discriminate.
    + apply Hl in H. discriminate.
Qed.

Lemma string_leb_trans (a b c : string) :
  String.leb a b = true -> String.leb b c = true -> String.leb a c = true.
Proof.
  rewrite !string_leb_lt. intros [->|H1] [->|H2]; auto.
  right. now apply OrderedTypeEx.String_as_OT.lt_trans with b.
Qed.

(** X2.  The options of a region multiselect are the regions that occur in
    the table, each once, in ascending order; the missing value is never an
    option. *)
Theorem region_options_sorted_distinct
    (ec2_df : ComputeTable) (s3_df : StorageTable) :
  (forall k, In k (ec2_regions ec2_df) <->
     exists r, In r ec2_df /\ Region r = Some k) /\
  NoDup (ec2_regions ec2_df) /\
  StronglySorted (fun a b => String.leb a b = true) (ec2_regions ec2_df) /\
  (forall k, In k (s3_regions s3_df) <->
     exists r, In r s3_df /\ SRegion r = Some k) /\
  NoDup (s3_regions s3_df) /\
  StronglySorted (fun a b => String.leb a b = true) (s3_regions s3_df).
Proof.
  assert (H : forall col, StronglySorted (fun a b => String.leb a b = true)
                            (region_options col)).
  { intro col. unfold region_options, sorted_str.
    apply sort_by_sorted.
    - apply string_leb_false.
    - apply string_leb_trans. }
  unfold ec2_regions, s3_regions.
  repeat split; try apply region_options_NoDup; try apply H.
  - intro Hk. apply region_options_In, in_map_iff in Hk.
    destruct Hk as [r [E Hr]]. now exists r.
  - intros [r [Hr E]]. apply region_options_In, in_map_iff. now exists r.
  - intro Hk. apply region_options_In, in_map_iff in Hk.
    destruct Hk as [r [E Hr]]. now exists r.
  - intros [r [Hr E]]. apply region_options_In, in_map_iff. now exists r.
Qed.

(** ** Cleaning and filtering *)

(** X3.  Dropping the rows that miss a cost or a utilization does not
    change any compute view: such rows fail the range tests anyway. *)
Theorem dropna_leaves_compute_view (raw_ec2 : ComputeTable)
    (c : FilterCriteria) :
  ec2_filtered (clean_ec2 raw_ec2) c = ec2_filtered raw_ec2 c.
Proof.
  unfold ec2_filtered, clean_ec2. apply filter_filter_implied.
  intros r H. apply ec2_keep_spec in H.
  destruct H as (_ & (v & _ & _ & -> & _) & (u & _ & _ & -> & _)).
  reflexivity.
Qed.

Lemma filter_map_comm {A B : Type} (f : A -> B) (p : B -> bool) (l : list A) :
  filter p (map f l) = map f (filter (fun a => p (f a)) l).
Proof.
  induction l as [|a l IH]; simpl; [reflexivity|].
  destruct (p (f a)); simpl; now rewrite IH.
Qed.

Lemma sort_by_map {A B : Type} (f : A -> B) (leb1 : A -> A -> bool)
    (leb2 : B -> B -> bool) (l : list A) :
  (forall a b, leb2 (f a) (f b) = leb1 a b) ->
  sort_by leb2 (map f l) = map f (sort_by leb1 l).
Proof.
  intro H.
  assert (Hins : forall a l', insert_by leb2 (f a) (map f l')
                              = map f (insert_by leb1 a l')).
  { intros a l'. induction l' as [|b l' IH]; simpl; [reflexivity|].
    rewrite H. destruct (leb1 a b); simpl; [reflexivity | now rewrite IH]. }
  induction l as [|a l IH]; simpl; [reflexivity|].
  now rewrite IH, Hins.
Qed.

Lemma sort_values_map {A B : Type} (f : A -> B) (col1 : A -> num)
    (col2 : B -> num) (asc : bool) (l : list A) :
  (forall a, col2 (f a) = col1 a) ->
  sort_values col2 asc (map f l) = map f (sort_values col1 asc l).
Proof.
  intro H. unfold sort_values.
  rewrite !filter_map_comm, map_app.
  rewrite (filter_ext (fun a => notna (col2 (f a)))
                      (fun a => notna (col1 a)))
    by (intro a; now rewrite H).
  rewrite (filter_ext (fun a => isna (col2 (f a)))
                      (fun a => isna (col1 a)))
    by (intro a; now rewrite H).
  f_equal. apply sort_by_map. intros a b. now rewrite !H.
Qed.

Lemma group_agg_map {A B : Type} (f : A -> B) (by1 : A -> key)
    (by2 : B -> key) (col1 : A -> num) (col2 : B -> num)
    (agg : list num -> num) (l : list A) :
  (forall a, by2 (f a) = by1 a) -> (forall a, col2 (f a) = col1 a) ->
  group_agg by2 col2 agg (map f l) = group_agg by1 col1 agg l.
Proof.
  intros Hby Hcol. unfold group_agg, groupby. rewrite !map_map. simpl.
  rewrite (map_ext (fun a => by2 (f a)) by1 Hby).
  apply map_ext. intro k. f_equal. f_equal.
  rewrite filter_map_comm, map_map.
  rewrite (map_ext (fun a => col2 (f a)) col1 Hcol).
  f_equal. apply filter_ext. intro a. now rewrite Hby.
Qed.

(** X4.  Filling the missing storage costs with 0 commutes with the region
    filter and leaves every storage figure as it would be on the raw table:
    the region options, the two KPIs, the total size per region, the
    heaviest region; the top-5 table is the top-5 of the raw view with its
    costs filled. *)
Theorem fillna_leaves_storage_figures (raw_s3 : StorageTable)
    (c : FilterCriteria) :
  s3_regions (clean_s3 raw_s3) = s3_regions raw_s3 /\
  s3_filtered (clean_s3 raw_s3) c = clean_s3 (s3_filtered raw_s3 c) /\
  kpi_s3_buckets (s3_filtered (clean_s3 raw_s3) c)
  = kpi_s3_buckets (s3_filtered raw_s3 c) /\
  kpi_total_s3_storage (s3_filtered (clean_s3 raw_s3) c)
  = kpi_total_s3_storage (s3_filtered raw_s3 c) /\
  storage_by_region (s3_filtered (clean_s3 raw_s3) c)
  = storage_by_region (s3_filtered raw_s3 c) /\
  s3_heaviest (s3_filtered (clean_s3 raw_s3) c)
  = s3_heaviest (s3_filtered raw_s3 c) /\
  top_s3 (s3_filtered (clean_s3 raw_s3) c)
  = clean_s3 (top_s3 (s3_filtered raw_s3 c)).
Proof.
  assert (E : s3_filtered (clean_s3 raw_s3) c
              = clean_s3 (s3_filtered raw_s3 c)).
  { unfold s3_filtered, clean_s3. now rewrite filter_map_comm. }
  assert (G : forall v, storage_by_region (clean_s3 v) = storage_by_region v).
  { intro v. unfold storage_by_region, clean_s3.
    now rewrite (group_agg_map _ SRegion SRegion TotalSizeGB TotalSizeGB). }
  assert (M : forall v, map TotalSizeGB (clean_s3 v) = map TotalSizeGB v).
  { intro v. unfold clean_s3. now rewrite map_map. }
  split.
  { unfold s3_regions, clean_s3. now rewrite map_map. }
  split; [exact E|]. rewrite E.
  split.
  { unfold kpi_s3_buckets, clean_s3. apply length_map. }
  split.
  { unfold kpi_total_s3_storage. rewrite M.
    now destruct (s3_filtered raw_s3 c). }
  split; [apply G|].
  split.
  { unfold s3_heaviest. rewrite G. now destruct (s3_filtered raw_s3 c). }
  unfold top_s3, nlargest, clean_s3.
  rewrite (sort_values_map _ TotalSizeGB TotalSizeGB false) by reflexivity.
  rewrite firstn_map.
  now rewrite (sort_values_map _ TotalSizeGB TotalSizeGB true) by reflexivity.
Qed.

Lemma filter_Sublist_implied {A : Type} (p q : A -> bool) (l : list A) :
  (forall a, p a = true -> q a = true) ->
  Sublist (filter p l) (filter q l).
Proof.
  intro H. induction l as [|a l IH]; simpl; [constructor|].
  destruct (p a) eqn:Ep.
  - rewrite (H a Ep). now constructor.
  - destruct (q a); [now constructor | exact IH].
Qed.

Lemma in_range_within (x : num) (inner outer : num * num) :
  range_within inner outer -> in_range x inner -> in_range x outer.
Proof.
  intros (lo1 & hi1 & lo2 & hi2 & -> & -> & Hlo & Hhi).
  intros (v & lo & hi & -> & El & Eh & H1 & H2). simpl in *.
  injection El as <-. injection Eh as <-.
  exists v, lo2, hi2. repeat split.
  - now apply Qle_trans with lo1.
  - now apply Qle_trans with hi1.
Qed.

(** X5.  Widening the criteria never removes a row: when the criteria [c1]
    select regions that [c2] selects too and the ranges of [c1] lie inside
    those of [c2], each view under [c1] is the view under [c2] with rows
    left out. *)
Theorem wider_criteria_wider_views
    (ec2_df : ComputeTable) (s3_df : StorageTable) (c1 c2 : FilterCriteria) :
  incl (selected_ec2_regions c1) (selected_ec2_regions c2) ->
  incl (selected_s3_regions c1) (selected_s3_regions c2) ->
  range_within (ec2_cost_range c1) (ec2_cost_range c2) ->
  range_within (ec2_cpu_range c1) (ec2_cpu_range c2) ->
  Sublist (ec2_filtered ec2_df c1) (ec2_filtered ec2_df c2) /\
  Sublist (s3_filtered s3_df c1) (s3_filtered s3_df c2).
Proof.
  intros H1 H2 H3 H4. split; apply filter_Sublist_implied; intros r Hr.
  - apply ec2_keep_spec in Hr. apply ec2_keep_spec.
    destruct Hr as (Ha & Hb & Hc). repeat split.
    + now apply H1.
    + now apply (in_range_within _ _ _ H3).
    + now apply (in_range_within _ _ _ H4).
  - unfold s3_keep in *. apply isin_In. apply isin_In in Hr. now apply H2.
Qed.

Lemma wider_criteria_wider_views_witness :
  Sublist (ec2_filtered demo_ec2 demo_criteria)
          (ec2_filtered demo_ec2
             (mkCriteria [Some "us-east-1"; Some "eu-west-1"]
                         [Some "us-east-1"]
                         (Some 0, Some 20) (Some 0, Some 100))).
Proof.
  apply (wider_criteria_wider_views demo_ec2 demo_s3 demo_criteria
           (mkCriteria [Some "us-east-1"; Some "eu-west-1"]
                       [Some "us-east-1"]
                       (Some 0, Some 20) (Some 0, Some 100))).
  - intros x [<-|[]]. now left.
  - intros x [<-|[]]. now left.
  - exists 0, 10, 0, 20. repeat split; discriminate.
  - exists 0, 100, 0, 100. repeat split; discriminate.
Defined.

(** ** What the charts and tables show *)

(** X6.  Every region that appears in the mean-cost series or in the
    total-size series is one of the selected regions, and every row of a
    top-5 table is a row of the table that passes the filter. *)
Theorem charts_show_selected_only
    (ec2_df : ComputeTable) (s3_df : StorageTable) (c : FilterCriteria) :
  (forall k v, In (k, v) (avg_cost_region (ec2_filtered ec2_df c)) ->
     In (Some k) (selected_ec2_regions c)) /\
  (forall k v, In (k, v) (storage_by_region (s3_filtered s3_df c)) ->
     In (Some k) (selected_s3_regions c)) /\
  (forall r, In r (top_ec2 (ec2_filtered ec2_df c)) ->
     In r ec2_df /\
     In (Region r) (selected_ec2_regions c) /\
     in_range (CostUSD r) (ec2_cost_range c) /\
     in_range (CPUUtilization r) (ec2_cpu_range c)) /\
  (forall r, In r (top_s3 (s3_filtered s3_df c)) ->
     In r s3_df /\ In (SRegion r) (selected_s3_regions c)).
Proof.
  split; [|split; [|split]].
  - intros k v H. apply sort_values_In, group_agg_In in H.
    destruct H as [[r [Hr E]] _]. apply filter_In in Hr.
    destruct Hr as [_ Hr]. apply ec2_keep_spec in Hr.
    rewrite <- E. apply Hr.
  - intros k v H. apply sort_values_In, group_agg_In in H.
    destruct H as [[r [Hr E]] _]. apply filter_In in Hr.
    destruct Hr as [_ Hr]. rewrite <- E. now apply isin_In.
  - intros r H. unfold top_ec2 in H.
    apply sort_values_In, nlargest_In, filter_In in H.
    destruct H as [Hin H]. apply ec2_keep_spec in H. tauto.
  - intros r H. unfold top_s3 in H.
    apply sort_values_In, nlargest_In, filter_In in H.
    destruct H as [Hin H]. split; [exact Hin | now apply isin_In].
Qed.

Lemma group_agg_nil_iff {A : Type} (by_ : A -> key) (col : A -> num)
    (agg : list num -> num) (df : list A) :
  group_agg by_ col agg df = [] <-> forall r, In r df -> by_ r = None.
Proof.
  split.
  - intros E r Hr. destruct (by_ r) as [k|] eqn:Ek; [|reflexivity].
    assert (H : In (k, agg (map col
                     (filter (fun r => key_eqb (by_ r) (Some k)) df)))
                   (group_agg by_ col agg df)).
    { apply group_agg_In. split; [now exists r | reflexivity]. }
    rewrite E in H. destruct H.
  - intro H. destruct (group_agg by_ col agg df) as [|[k v] s] eqn:E;
      [reflexivity|].
    assert (Hin : In (k, v) (group_agg by_ col agg df))
      by (rewrite E; now left).
    apply group_agg_In in Hin. destruct Hin as [[r [Hr Ek]] _].
    rewrite (H r Hr) in Ek. discriminate.
Qed.

Lemma sort_values_nil_iff {A : Type} (col : A -> num) (asc : bool)
    (s : list A) :
  sort_values col asc s = [] <-> s = [].
Proof.
  split; intro H.
  - apply Permutation_nil. rewrite <- H. apply sort_values_perm.
  - subst. reflexivity.
Qed.

(** X7.  The two bar charts are guarded by the emptiness of the series
    (lines 133, 154), the other charts by the emptiness of the view.  A
    series is empty exactly when no row of the view has a region; for
    selections made in the widgets the two tests agree. *)
Theorem chart_guards_agree
    (ec2_df : ComputeTable) (s3_df : StorageTable) (c : FilterCriteria) :
  widget_criteria ec2_df s3_df c ->
  (forall view : ComputeTable,
     avg_cost_region view = [] <-> forall r, In r view -> Region r = None) /\
  (forall view : StorageTable,
     storage_by_region view = [] <->
     forall r, In r view -> SRegion r = None) /\
  empty (avg_cost_region (ec2_filtered ec2_df c))
  = empty (ec2_filtered ec2_df c) /\
  empty (storage_by_region (s3_filtered s3_df c))
  = empty (s3_filtered s3_df c).
Proof.
  intro Hw.
  assert (G1 : forall view : ComputeTable,
     avg_cost_region view = [] <-> forall r, In r view -> Region r = None).
  { intro view. unfold avg_cost_region.
    now rewrite sort_values_nil_iff, group_agg_nil_iff. }
  assert (G2 : forall view : StorageTable,
     storage_by_region view = [] <->
     forall r, In r view -> SRegion r = None).
  { intro view. unfold storage_by_region.
    now rewrite sort_values_nil_iff, group_agg_nil_iff. }
  split; [exact G1|]. split; [exact G2|]. split.
  - destruct (ec2_filtered ec2_df c) as [|r0 view] eqn:E; [reflexivity|].
    simpl. destruct (avg_cost_region (r0 :: view)) eqn:Es; [|reflexivity].
    exfalso. apply G1 with (r := r0) in Es; [|now left].
    assert (Hr : In r0 (ec2_filtered ec2_df c)) by (rewrite E; now left).
    now apply (widget_view_ec2 ec2_df s3_df c r0 Hw) in Hr.
  - destruct (s3_filtered s3_df c) as [|r0 view] eqn:E; [reflexivity|].
    simpl. destruct (storage_by_region (r0 :: view)) eqn:Es; [|reflexivity].
    exfalso. apply G2 with (r := r0) in Es; [|now left].
    assert (Hr : In r0 (s3_filtered s3_df c)) by (rewrite E; now left).
    now apply (widget_view_s3 ec2_df s3_df c r0 Hw) in Hr.
Qed.

Lemma chart_guards_agree_witness :
  empty (avg_cost_region (ec2_filtered demo_ec2 demo_criteria))
  = empty (ec2_filtered demo_ec2 demo_criteria).
Proof.
  apply (chart_guards_agree demo_ec2 demo_s3 demo_criteria).
  split; intros x [<-|[]]; vm_compute; auto.
Defined.

(** ** The region named by a strategy row *)

Lemma fold_pick_keep (l : list (string * Q)) (b : string * Q) :
  (forall x, In x l -> snd x <= snd b) ->
  fold_left (fun best x => if Qle_bool (snd x) (snd best) then best else x)
            l b = b.
Proof.
  induction l as [|a l IH]; intro H; simpl; [reflexivity|].
  assert (E : Qle_bool (snd a) (snd b) = true).
  { apply Qle_bool_iff, H. now left. }
  rewrite E. apply IH. intros x Hx. apply H. now right.
Qed.

Lemma fold_qmax_keep (l : list Q) (a : Q) :
  Qred a = a ->
  (forall x, In x l -> Qred x = x /\ x <= a) ->
  fold_left qmax l a = a.
Proof.
  intro Ha. induction l as [|b l IH]; intro H; simpl; [reflexivity|].
  assert (E : qmax a b = a).
  { destruct (H b (or_introl eq_refl)) as [Hb Hle].
    unfold qmax. destruct (Qle_bool a b) eqn:Eab; [|reflexivity].
    apply Qle_bool_iff in Eab.
    apply Qred_eq_of_Qeq; try assumption. now apply Qle_antisym. }
  rewrite E. apply IH. intros x Hx. apply H. now right.
Qed.

Lemma dropna_series_all_nan (s : list (string * num)) :
  (forall y, In y s -> snd y = None) -> dropna_series s = [].
Proof.
  induction s as [|[k [v|]] s IH]; intro H; simpl.
  - reflexivity.
  - specialize (H (k, Some v) (or_introl eq_refl)). discriminate.
  - apply IH. intros y Hy. apply H. now right.
Qed.

(** On a series in descending order, [idxmax] and [max] give the label
    and the value of the first entry. *)
Lemma sorted_series_first (s : list (string * num)) (k : string) :
  StronglySorted (fun a b => num_ge (snd a) (snd b)) s ->
  (forall k' v', In (k', Some v') s -> Qred v' = v') ->
  idxmax s = Ok k ->
  hd_error s = Some (k, series_max (map snd s)).
Proof.
  intros Hs Hred Hk. unfold idxmax in Hk.
  destruct (dropna_series s) as [|b l] eqn:E; [discriminate|].
  destruct s as [|[k0 [v0|]] rest]; [discriminate| |].
  - simpl in E. injection E as <- <-.
    apply StronglySorted_inv in Hs. destruct Hs as [_ Hall].
    rewrite Forall_forall in Hall.
    assert (Hub : forall x, In x (dropna_series rest) -> snd x <= v0).
    { intros [kx vx] Hx. apply dropna_series_In in Hx.
      exact (Hall _ Hx). }
    rewrite fold_pick_keep in Hk by exact Hub.
    injection Hk as <-. simpl.
    unfold series_max. simpl. rewrite dropna_map_snd.
    rewrite fold_qmax_keep; [reflexivity | |].
    + apply (Hred k0). now left.
    + intros x Hx. apply in_map_iff in Hx. destruct Hx as [[kx vx] [<- Hx]].
      split.
      * apply (Hred kx). right. now apply dropna_series_In.
      * now apply (Hub (kx, vx)).
  - exfalso. simpl in E.
    apply StronglySorted_inv in Hs. destruct Hs as [_ Hall].
    rewrite Forall_forall in Hall.
    rewrite dropna_series_all_nan in E; [discriminate|].
    intros y Hy. specialize (Hall y Hy). simpl in Hall.
    now destruct (snd y).
Qed.

(** X8.  When the strategy list names a region, the region and the value
    it prints are the first entry of the sorted series, that is the first
    bar of the corresponding chart: among regions that tie for the maximum,
    the one the descending sort puts first. *)
Theorem strategy_names_first_bar
    (ec2_view : ComputeTable) (s3_view : StorageTable)
    (k : string) (v : num) :
  (ec2_expensive ec2_view = Ok (Some (k, v)) ->
   hd_error (avg_cost_region ec2_view) = Some (k, v)) /\
  (s3_heaviest s3_view = Ok (Some (k, v)) ->
   hd_error (storage_by_region s3_view) = Some (k, v)).
Proof.
  split.
  - unfold ec2_expensive. destruct (empty ec2_view); simpl; [discriminate|].
    destruct (idxmax (avg_cost_region ec2_view)) as [k0|] eqn:Ek;
      simpl; [|discriminate].
    intro H. injection H as <- <-.
    apply sorted_series_first; [apply sort_values_desc_sorted | | exact Ek].
    intros k' v' Hin. apply sort_values_In, group_agg_In in Hin.
    destruct Hin as [_ Hv]. symmetry in Hv. now apply series_mean_red in Hv.
  - unfold s3_heaviest. destruct (empty s3_view); simpl; [discriminate|].
    destruct (idxmax (storage_by_region s3_view)) as [k0|] eqn:Ek;
      simpl; [|discriminate].
    intro H. injection H as <- <-.
    apply sorted_series_first; [apply sort_values_desc_sorted | | exact Ek].
    intros k' v' Hin. apply sort_values_In, group_agg_In in Hin.
    destruct Hin as [_ Hv]. symmetry in Hv. now apply series_sum_red in Hv.
Qed.

Lemma strategy_names_first_bar_witness :
  hd_error (avg_cost_region demo_seven) = Some ("B", Some 7).
Proof.
  apply (strategy_names_first_bar demo_seven [] "B" (Some 7)).
  reflexivity.
Defined.

(** ** The top-5 tables as displayed *)

Lemma sort_values_asc_sorted {A : Type} (col : A -> num) (s : list A) :
  StronglySorted (fun a b => num_le (col a) (col b)) (sort_values col true s).
Proof.
  unfold sort_values. apply StronglySorted_app.
  - eapply StronglySorted_weaken; [|apply sort_by_sorted].
    + intros a b Ha Hb Hab.
      apply sort_by_In, filter_In in Ha, Hb.
      destruct Ha as [_ Ha], Hb as [_ Hb].
      cbv beta iota in Hab.
      destruct (col a) as [x|], (col b) as [y|]; try discriminate.
      simpl in *. now apply Qle_bool_iff.
    + intros a b E.
      destruct (Qlt_le_dec (num_get (col b)) (num_get (col a))) as [H|H].
      * apply Qle_bool_iff. now apply Qlt_le_weak.
      * apply Qle_bool_iff in H. congruence.
    + intros a b c H1 H2.
      apply Qle_bool_iff in H1, H2. apply Qle_bool_iff.
      now apply Qle_trans with (num_get (col b)).
  - apply StronglySorted_all. intros a b _ Hb.
    apply filter_In in Hb. destruct Hb as [_ Hb].
    destruct (col b); [discriminate|]. now destruct (col a).
  - intros a b _ Hb.
    apply filter_In in Hb. destruct Hb as [_ Hb].
    destruct (col b); [discriminate|]. now destruct (col a).
Qed.

Lemma top_rows {A : Type} (col : A -> num) (view : list A) :
  let shown := sort_values col true (nlargest 5 col view) in
  StronglySorted (fun a b => num_le (col a) (col b)) shown /\
  List.length shown = Nat.min 5 (List.length view) /\
  (List.length view <= 5 -> Permutation shown view)%nat.
Proof.
  intro shown. split; [apply sort_values_asc_sorted|]. split.
  - unfold shown, nlargest.
    rewrite (Permutation_length (sort_values_perm col true _)).
    rewrite length_firstn.
    now rewrite (Permutation_length (sort_values_perm col false view)).
  - intro Hle. unfold shown, nlargest.
    eapply perm_trans; [apply sort_values_perm|].
    rewrite firstn_all2; [apply sort_values_perm|].
    now rewrite (Permutation_length (sort_values_perm col false view)).
Qed.

(** X11.  A top-5 table is displayed in ascending order of its sort column
    (smallest first, so that the horizontal bars read largest at the top);
    it has five rows, or as many as the view has when that is fewer, and
    then it holds every row of the view. *)
Theorem top5_displayed_ascending
    (ec2_view : ComputeTable) (s3_view : StorageTable) :
  (StronglySorted (fun a b => num_le (CostUSD a) (CostUSD b))
                  (top_ec2 ec2_view) /\
   List.length (top_ec2 ec2_view) = Nat.min 5 (List.length ec2_view) /\
   (List.length ec2_view <= 5 -> Permutation (top_ec2 ec2_view) ec2_view)%nat)
  /\
  (StronglySorted (fun a b => num_le (TotalSizeGB a) (TotalSizeGB b))
                  (top_s3 s3_view) /\
   List.length (top_s3 s3_view) = Nat.min 5 (List.length s3_view) /\
   (List.length s3_view <= 5 -> Permutation (top_s3 s3_view) s3_view)%nat).
Proof.
  split; [apply (top_rows CostUSD) | apply (top_rows TotalSizeGB)].
Qed.

(** ** The data cache *)

(** X12.  Once [load_data] has run, its store answers every later call:
    a later run shows the data of the first load even if the files have
    changed since, and leaves the store as it was. *)
Theorem cache_serves_first_load
    (files later_files : Files) (c : FilterCriteria) :
  script later_files c (snd (script files c None))
  = (fst (script files c None), Some files).
Proof.
  destruct files as [ec2_df s3_df]. reflexivity.
Qed.

(** ** When building the strategies fails *)

Lemma idxmax_error (s : list (string * num)) :
  idxmax s = ValueError <-> dropna_series s = [].
Proof.
  unfold idxmax. destruct (dropna_series s); split; intro H;
    try reflexivity; discriminate.
Qed.

(** X13.  Looking up the heaviest storage region raises [ValueError]
    exactly when the storage view has rows but none of them has a region,
    and looking up the most expensive compute region raises it when the
    compute view has rows but none has a region; in either case no
    strategy row is produced. *)
Theorem strategies_error_cases
    (ec2_view : ComputeTable) (s3_view : StorageTable) :
  (s3_heaviest s3_view = ValueError <->
   s3_view <> [] /\ forall r, In r s3_view -> SRegion r = None) /\
  (ec2_view <> [] -> (forall r, In r ec2_view -> Region r = None) ->
   ec2_expensive ec2_view = ValueError) /\
  (s3_heaviest s3_view = ValueError \/ ec2_expensive ec2_view = ValueError ->
   strategies ec2_view s3_view = ValueError).
Proof.
  split; [|split].
  - unfold s3_heaviest. destruct s3_view as [|r0 view]; simpl.
    + split; [discriminate | intros [H _]; congruence].
    + set (v := r0 :: view).
      destruct (idxmax (storage_by_region v)) as [k|] eqn:E; simpl.
      * split; [discriminate|]. intros [_ H].
        assert (Es : storage_by_region v = []).
        { unfold storage_by_region.
          now apply sort_values_nil_iff, group_agg_nil_iff. }
        rewrite Es in E. discriminate.
      * split; [|reflexivity]. intros _. split; [discriminate|].
        apply idxmax_error in E.
        destruct (storage_by_region v) as [|[k x] s] eqn:Es.
        -- unfold storage_by_region in Es.
           apply sort_values_nil_iff in Es.
           exact (proj1 (group_agg_nil_iff _ _ _ _) Es).
        -- exfalso.
           assert (Hin : In (k, x) (storage_by_region v))
             by (rewrite Es; now left).
           apply sort_values_In, group_agg_In in Hin.
           destruct Hin as [_ ->]. discriminate.
  - intros Hne H. unfold ec2_expensive. rewrite (empty_false _ Hne). simpl.
    assert (Es : avg_cost_region ec2_view = []).
    { unfold avg_cost_region.
      now apply sort_values_nil_iff, group_agg_nil_iff. }
    now rewrite Es.
  - unfold strategies, strategies_as. intros [H|H].
    + destruct (ec2_expensive ec2_view); cbn [bind];
        [now rewrite H | reflexivity].
    + now rewrite H.
Qed.

Lemma strategies_error_cases_witness :
  strategies [] [mkStorage "tmp" None (Some 10) (Some 0)] = ValueError.
Proof.
  apply (strategies_error_cases [] [mkStorage "tmp" None (Some 10) (Some 0)]).
  left. reflexivity.
Defined.

(** ** The thousands separator *)

Lemma commas_strip (n : nat) (l : list ascii) :
  (List.length l <= n)%nat ->
  (forall a, In a l -> not_comma a = true) ->
  filter not_comma (commas l) = l /\
  List.length (commas l) = (List.length l + (List.length l - 1) / 3)%nat.
Proof.
  revert l. induction n as [|n IH]; intros l Hn Hl.
  - destruct l; [now split | simpl in Hn; lia].
  - destruct l as [|a [|b [|c [|d rest]]]];
      try (simpl in *; repeat rewrite Hl by auto; now split).
    change (commas (a :: b :: c :: d :: rest))
      with (a :: b :: c :: ","%char :: commas (d :: rest)).
    destruct (IH (d :: rest)) as [E1 E2].
    + simpl in *. lia.
    + intros x Hx. apply Hl. now do 3 right.
    + split.
      * cbn [filter].
        rewrite (Hl a), (Hl b), (Hl c) by (simpl; auto).
        change (not_comma ",") with false. cbv iota. now rewrite E1.
      * simpl List.length in *. rewrite E2.
        replace (S (S (S (S (List.length rest)))) - 1)%nat
          with (S (List.length rest) - 1 + 1 * 3)%nat by lia.
        rewrite Nat.div_add by lia. lia.
Qed.

Lemma uint_chars (d : Decimal.uint) (a : ascii) :
  In a (list_ascii_of_string (NilEmpty.string_of_uint d)) ->
  not_comma a = true.
Proof.
  induction d; simpl; intro Hx; try destruct Hx as [<-|Hx];
    try reflexivity; try contradiction; now apply IHd.
Qed.

Lemma digits_chars (z : Z) (a : ascii) :
  In a (list_ascii_of_string (digits z)) -> not_comma a = true.
Proof.
  unfold digits, NilZero.string_of_uint.
  destruct (N.to_uint (Z.to_N z)) eqn:E; try apply uint_chars.
  simpl. intros [<-|[]]. reflexivity.
Qed.

Lemma length_list_ascii (s : string) :
  List.length (list_ascii_of_string s) = String.length s.
Proof. induction s as [|a s IH]; simpl; congruence. Qed.

(** X14.  The [,] option only inserts separators: taking the commas out
    of the grouped text gives back the digits, and a text of [n] digits
    receives [(n - 1) / 3] commas. *)
Theorem thousands_only_inserts_commas (z : Z) :
  filter not_comma (list_ascii_of_string (thousands (digits z)))
  = list_ascii_of_string (digits z) /\
  String.length (thousands (digits z))
  = (String.length (digits z) + (String.length (digits z) - 1) / 3)%nat.
Proof.
  unfold thousands.
  set (l := list_ascii_of_string (digits z)).
  destruct (commas_strip (List.length (rev l)) (rev l)) as [E1 E2].
  - apply Nat.le_refl.
  - intros a Ha. apply in_rev in Ha. now apply (digits_chars z).
  - split.
    + rewrite list_ascii_of_string_of_list_ascii, filter_rev, E1.
      apply rev_involutive.
    + rewrite <- (length_list_ascii (string_of_list_ascii _)).
      rewrite list_ascii_of_string_of_list_ascii, length_rev, E2.
      rewrite length_rev. unfold l. now rewrite length_list_ascii.
Qed.

(** ** The default ranges *)

Lemma fold_qmin_In (l : list Q) (a : Q) : In (fold_left qmin l a) (a :: l).
Proof.
  revert a. induction l as [|b l IH]; intro a; simpl.
  - now left.
  - destruct (IH (qmin a b)) as [H|H].
    + rewrite <- H. unfold qmin. destruct (Qle_bool a b); auto.
    + right. now right.
Qed.

Lemma series_min_max_spec (s : list num) (v0 : Q) :
  In (Some v0) s ->
  exists lo hi,
    series_min s = Some lo /\ series_max s = Some hi /\ lo <= hi /\
    In (Some lo) s /\ In (Some hi) s /\
    forall v, In (Some v) s -> lo <= v /\ v <= hi.
Proof.
  intro H0. apply dropna_In in H0.
  unfold series_min, series_max.
  destruct (dropna s) as [|a l] eqn:E; [destruct H0|].
  exists (fold_left qmin l a), (fold_left qmax l a).
  assert (Hb : forall v, In (Some v) s ->
                 fold_left qmin l a <= v /\ v <= fold_left qmax l a).
  { intros v Hv. apply dropna_In in Hv. rewrite E in Hv.
    split; [now apply fold_qmin_le | now apply fold_qmax_ge]. }
  repeat split.
  - apply Qle_trans with a.
    + apply fold_qmin_le. now left.
    + apply fold_qmax_ge. now left.
  - apply dropna_In. rewrite E. apply fold_qmin_In.
  - apply dropna_In. rewrite E. apply fold_qmax_In.
  - now apply Hb.
  - now apply Hb.
Qed.

Lemma slider_raises (lo hi : Q) (value : num * num) :
  slider (Some lo) (Some hi) value = StreamlitInvalidMinMaxError <-> hi <= lo.
Proof.
  unfold slider. destruct (Qle_bool hi lo) eqn:E.
  - split; [intros _; now apply Qle_bool_iff | reflexivity].
  - split; [discriminate|]. intro H. apply Qle_bool_iff in H. congruence.
Qed.

Lemma constant_column (s : list num) (lo hi : Q) :
  In (Some lo) s -> In (Some hi) s -> lo <= hi ->
  (forall v, In (Some v) s -> lo <= v /\ v <= hi) ->
  (hi <= lo <-> exists v, forall x, In (Some x) s -> x == v).
Proof.
  intros Hlo Hhi Hle Hall. split.
  - intro H. exists lo. intros x Hx. destruct (Hall x Hx) as [H1 H2].
    apply Qle_antisym; [|exact H1]. now apply Qle_trans with hi.
  - intros [v Hv]. rewrite (Hv lo Hlo), (Hv hi Hhi). apply Qle_refl.
Qed.

(** X15.  On a cleaned compute table that has rows, building the sidebar
    raises exactly when the cost column or the utilization column holds a
    single value.  Otherwise the default cost range and the default
    utilization range run from the smallest to the largest value of their
    column: both bounds are values found in the table, the lower is below
    the upper, and every row lies inside. *)
Theorem default_ranges_cover_table
    (raw_ec2 : ComputeTable) (s3_df : StorageTable) :
  let ec2_df := clean_ec2 raw_ec2 in
  ec2_df <> [] ->
  (sidebar ec2_df s3_df = StreamlitInvalidMinMaxError <->
   (exists v, forall x, In (Some x) (map CostUSD ec2_df) -> x == v) \/
   (exists v, forall x, In (Some x) (map CPUUtilization ec2_df) -> x == v))
  /\
  (forall c, sidebar ec2_df s3_df = Built c ->
     (exists lo hi,
        ec2_cost_range c = (Some lo, Some hi) /\ lo < hi /\
        In (Some lo) (map CostUSD ec2_df) /\
        In (Some hi) (map CostUSD ec2_df) /\
        forall r, In r ec2_df -> in_range (CostUSD r) (ec2_cost_range c)) /\
     (exists lo hi,
        ec2_cpu_range c = (Some lo, Some hi) /\ lo < hi /\
        In (Some lo) (map CPUUtilization ec2_df) /\
        In (Some hi) (map CPUUtilization ec2_df) /\
        forall r, In r ec2_df ->
                  in_range (CPUUtilization r) (ec2_cpu_range c))).
Proof.
  intros ec2_df Hne.
  assert (Hex : exists r0, In r0 ec2_df).
  { destruct ec2_df as [|r0 rest]; [congruence | exists r0; now left]. }
  destruct Hex as [r0 Hr0].
  destruct (clean_ec2_notna raw_ec2 r0 Hr0) as (cost0 & cpu0 & Ec & Eu).
  destruct (series_min_max_spec (map CostUSD ec2_df) cost0)
    as (lo & hi & E1 & E2 & Hle & Hlo & Hhi & Hall).
  { rewrite <- Ec. now apply in_map. }
  destruct (series_min_max_spec (map CPUUtilization ec2_df) cpu0)
    as (lo' & hi' & E1' & E2' & Hle' & Hlo' & Hhi' & Hall').
  { rewrite <- Eu. now apply in_map. }
  pose proof (constant_column _ lo hi Hlo Hhi Hle Hall) as Kc.
  pose proof (constant_column _ lo' hi' Hlo' Hhi' Hle' Hall') as Ku.
  assert (Hs : sidebar ec2_df s3_df
               = match slider (Some lo) (Some hi) (Some lo, Some hi) with
                 | StreamlitInvalidMinMaxError => StreamlitInvalidMinMaxError
                 | Built cost_range =>
                     match slider (Some lo') (Some hi') (Some lo', Some hi')
                     with
                     | StreamlitInvalidMinMaxError =>
                         StreamlitInvalidMinMaxError
                     | Built cpu_range =>
                         Built (mkCriteria
                                  (map Some (ec2_regions ec2_df))
                                  (map Some (s3_regions s3_df))
                                  cost_range cpu_range)
                     end
                 end).
  { unfold sidebar, default_criteria. simpl. now rewrite E1, E2, E1', E2'. }
  rewrite Hs. clear Hs.
  pose proof (slider_raises lo hi (Some lo, Some hi)) as Rc.
  pose proof (slider_raises lo' hi' (Some lo', Some hi')) as Ru.
  destruct (slider (Some lo) (Some hi) (Some lo, Some hi))
    as [cost|] eqn:Sc.
  - apply slider_built in Sc. subst cost.
    destruct (slider (Some lo') (Some hi') (Some lo', Some hi'))
      as [cpu|] eqn:Su.
    + apply slider_built in Su. subst cpu. split.
      * split; [discriminate|]. intros [H|H].
        -- apply Kc, Rc in H. discriminate.
        -- apply Ku, Ru in H. discriminate.
      * intros c Hc. injection Hc as <-. simpl. split.
        -- exists lo, hi. repeat split; try assumption.
           ++ apply Qnot_le_lt. intro H. apply Rc in H. discriminate.
           ++ intros r Hr.
              destruct (clean_ec2_notna raw_ec2 r Hr) as (x & _ & Ex & _).
              exists x, lo, hi. repeat split; try assumption;
                apply Hall; rewrite <- Ex; now apply in_map.
        -- exists lo', hi'. repeat split; try assumption.
           ++ apply Qnot_le_lt. intro H. apply Ru in H. discriminate.
           ++ intros r Hr.
              destruct (clean_ec2_notna raw_ec2 r Hr) as (_ & x & _ & Ex).
              exists x, lo', hi'. repeat split; try assumption;
                apply Hall'; rewrite <- Ex; now apply in_map.
    + split; [|discriminate].
      split; [intros _ | reflexivity].
      right. apply Ku, Ru. reflexivity.
  - split; [|discriminate].
    split; [intros _ | reflexivity].
    left. apply Kc, Rc. reflexivity.
Qed.

Lemma default_ranges_cover_table_witness :
  exists lo hi,
    ec2_cost_range (default_criteria (clean_ec2 demo_ec2) demo_s3)
    = (Some lo, Some hi) /\ lo < hi.
Proof.
  destruct (default_ranges_cover_table demo_ec2 demo_s3) as [_ H].
  - vm_compute. discriminate.
  - destruct (H (default_criteria (clean_ec2 demo_ec2) demo_s3))
      as [(lo & hi & H1 & H2 & _) _].
    + reflexivity.
    + now exists lo, hi.
Defined.

(** ** The no-data path *)

(** X16.  When both views are empty, whatever the tables and the criteria,
    the script runs to its end without error: both counts are 0, the two
    text KPIs are 0.00 and 0, both series are empty, no top-5 table is
    built, and the strategy list has its four rows with the two
    placeholders. *)
Theorem empty_views_render_no_data
    (ec2_df : ComputeTable) (s3_df : StorageTable) (c : FilterCriteria) :
  ec2_filtered ec2_df c = [] ->
  s3_filtered s3_df c = [] ->
  render ec2_df s3_df c
  = mkOutputs [] [] 0 "0.00" 0 "0" [] [] None None
      (Ok [mkStrategy "EC2" "No EC2 data for current filters"
             (Optimization_Action (ec2_dynamic_row None))
             (Expected_Impact (ec2_dynamic_row None));
           ec2_static_row;
           mkStrategy "S3" "No S3 data for current filters"
             (Optimization_Action (s3_dynamic_row None))
             (Expected_Impact (s3_dynamic_row None));
           s3_static_row]).
Proof.
  intros H1 H2. unfold render. rewrite H1, H2. reflexivity.
Qed.

Lemma empty_views_render_no_data_witness :
  out_strategies (render demo_ec2 demo_s3 degenerate_demo)
  = Ok [ec2_dynamic_row None; ec2_static_row;
        s3_dynamic_row None; s3_static_row].
Proof.
  rewrite (empty_views_render_no_data demo_ec2 demo_s3 degenerate_demo);
    reflexivity.
Defined.
